(** * poibin: the Poisson binomial distribution of [src/poibin.py]

    A shallow embedding of the class [PoiBin] and of the numpy operations it
    calls, followed by the properties of its validation, of its spectrum
    builder and of its three queries.

    Number model.  The probabilities handed to the constructor are IEEE
    binary64 values (Rocq's primitive [float]), so that the comparisons of
    [check_input_prob] behave as numpy's do, NaN included.  Once the input is
    validated every element is a finite binary64 value; from there on a value
    is read as the real number it denotes and the transform pipeline
    ([np.exp], [np.log], [np.arctan2], [np.abs], [np.fft.fft]) is computed
    over [R].  Rounding is therefore outside the model; the one IEEE special
    value that the pipeline produces on valid input, [np.log(0) = -inf], is
    kept ([ereal]).

    What the idealisation hides.  Over [R] the frequency is exactly
    [2 pi / (n + 1)], the self-mirrored entry of the spectrum is exactly
    real, the transform is exactly real, and the reality check of
    [get_pmf_xi] never fires on a validated input.  In binary64 none of
    this holds: [np.pi] lies below pi ([np_pi_below_PI]), at that frequency
    the self-mirrored entry has a non-zero imaginary part, and the check
    compares rounding residue with [1e-15], so that a construction can end
    in its [TypeError] on valid probabilities.  The properties of the stored
    vectors are therefore stated for a constructed object
    ([init arr = Ok self]) and hold of the binary64 values up to rounding;
    that a construction succeeds on every validated input
    ([init_on_valid_input]) is a fact of the idealised pipeline only, used
    to derive the stored vector of a constructed object.

    Interpreter model.  [pval] names [collections.Iterable], which exists up
    to Python 3.9; the embedding follows such an interpreter, where the
    expression evaluates without effect. *)

From Stdlib Require Import String Ascii DecimalString.
From Stdlib Require Import List ZArith QArith Bool Lia.
From Stdlib Require Import Floats.
From Stdlib Require Import Reals Lra Ring.
From Stdlib Require Import Permutation.
From Stdlib Require Import Machin.
Import ListNotations.
Close Scope Q_scope.

(** ** Exceptions and results *)

(** The exception classes the source raises, each with its message. *)
Inductive exn : Type :=
| ValueError (msg : string)
| TypeError (msg : string)
| AssertionError (msg : string)
| IndexError (msg : string).

Inductive result (A : Type) : Type :=
| Ok (a : A)
| Raise (e : exn).

Arguments Ok {A} a.
Arguments Raise {A} e.

Definition bind {A B : Type} (r : result A) (k : A -> result B) : result B :=
  match r with
  | Ok a => k a
  | Raise e => Raise e
  end.

Notation "x <- r ;; k" := (bind r (fun x => k))
  (at level 61, r at next level, right associativity).
Notation "r ;;; k" := (bind r (fun _ => k))
  (at level 61, right associativity).

(** [assert cond, msg] *)
Definition py_assert (cond : bool) (msg : string) : result unit :=
  if cond then Ok tt else Raise (AssertionError msg).

Definition raises {A : Type} (r : result A) : Prop :=
  exists e, r = Raise e.

Definition is_value_error (e : exn) : bool :=
  match e with ValueError _ => true | _ => false end.

Definition is_type_error (e : exn) : bool :=
  match e with TypeError _ => true | _ => false end.

Definition is_assertion_error (e : exn) : bool :=
  match e with AssertionError _ => true | _ => false end.

(** ** The input array: [np.array(p)] *)

(** What [np.array(p)] hands to the constructor: a shape and the binary64
    elements in row-major order.  A flat list of [n] numbers has shape
    [(n,)], a bare number has shape [()], a list of [r] lists of [c] numbers
    has shape [(r, c)]. *)
Record ndarray : Type := mk_ndarray {
  shape : list nat;
  data : list float
}.

(** [a.size]: the product of the dimensions. *)
Definition size (a : ndarray) : nat := fold_right Nat.mul 1%nat (shape a).

(** [np.array(l)] for a flat Python list of floats. *)
Definition np_array_1d (l : list float) : ndarray :=
  mk_ndarray [List.length l] l.

Definition shape_eqb (s t : list nat) : bool :=
  if list_eq_dec Nat.eq_dec s t then true else false.

(** [np.all(a >= 0)] and [np.all(a <= 1)] on binary64 elements. *)
Definition np_all_ge0 (l : list float) : bool :=
  forallb (fun x => PrimFloat.leb 0%float x) l.

Definition np_all_le1 (l : list float) : bool :=
  forallb (fun x => PrimFloat.leb x 1%float) l.

Definition msg_shape : string :=
  "Input must be an one-dimensional array or a list.".
Definition msg_negative : string :=
  "Input probabilites have to be non negative.".
Definition msg_above_one : string :=
  "Input probabilites have to be smaller than 1.".

(** [PoiBin.check_input_prob], with [self.p] and [self.n] as arguments. *)
Definition check_input_prob (p : ndarray) (n : nat) : result unit :=
  if negb (shape_eqb (shape p) [n]) then Raise (ValueError msg_shape)
  else if negb (np_all_ge0 (data p)) then Raise (ValueError msg_negative)
  else if negb (np_all_le1 (data p)) then Raise (ValueError msg_above_one)
  else Ok tt.

(** ** From binary64 to the reals *)

(** The real number a finite binary64 value denotes.  Infinities and NaN
    denote no real number; [check_input_prob] lets none of them through
    ([validated_finite] below), so their image here is never used. *)
Definition SF2R (f : spec_float) : R :=
  match f with
  | S754_finite s m e => (IZR (if s then Z.neg m else Z.pos m) * powerRZ 2 e)%R
  | _ => 0%R
  end.

Definition float_to_R (x : float) : R := SF2R (Prim2SF x).

Definition is_finite_float (x : float) : bool :=
  match Prim2SF x with
  | S754_zero _ | S754_finite _ _ _ => true
  | _ => false
  end.

(** ** Arrays of the pipeline *)

(** One-dimensional numpy arrays are lists.  [a[i]] and [a[i] = v] with a
    non-negative index raise [IndexError] past the end. *)
Definition msg_index : string := "index out of bounds".

Definition getitem {A : Type} (a : list A) (i : nat) : result A :=
  match nth_error a i with
  | Some v => Ok v
  | None => Raise (IndexError msg_index)
  end.

Definition setitem {A : Type} (a : list A) (i : nat) (v : A) : result (list A) :=
  if (i <? List.length a)%nat
  then Ok (firstn i a ++ v :: skipn (S i) a)
  else Raise (IndexError msg_index).

(** [a[i:j]] for non-negative bounds: both are clamped to the length. *)
Definition slice {A : Type} (a : list A) (i j : nat) : list A :=
  firstn (j - i) (skipn i a).

Definition msg_broadcast : string := "could not broadcast input array".

(** [a[i:j] = v]: the value must have the length of the slice, or length one
    (it is then repeated); any other length is a [ValueError]. *)
Definition set_slice {A : Type} (a : list A) (i j : nat) (v : list A)
  : result (list A) :=
  let len := List.length a in
  let lo := Nat.min i len in
  let hi := Nat.max lo (Nat.min j len) in
  if (List.length v =? hi - lo)%nat
  then Ok (firstn lo a ++ v ++ skipn hi a)
  else match v with
       | [x] => Ok (firstn lo a ++ repeat x (hi - lo) ++ skipn hi a)
       | _ => Raise (ValueError msg_broadcast)
       end.

(** [np.arange(i, j)] *)
Definition arange (i j : nat) : list nat := seq i (j - i).

(** ** Complex numbers and the numpy functions of the pipeline *)

Record complex : Type := Cx { real : R; imag : R }.

Section Numpy.
Local Open Scope R_scope.

(** numpy's cast of a real to complex *)
Definition Cof_real (x : R) : complex := Cx x 0.

(** the Python literal [1j] *)
Definition Cj : complex := Cx 0 1.

Definition Cadd (z w : complex) : complex :=
  Cx (real z + real w) (imag z + imag w).

Definition Cmul (z w : complex) : complex :=
  Cx (real z * real w - imag z * imag w)
     (real z * imag w + imag z * real w).

Definition Cdiv (z w : complex) : complex :=
  let m := real w * real w + imag w * imag w in
  Cx ((real z * real w + imag z * imag w) / m)
     ((imag z * real w - real z * imag w) / m).

(** [np.conjugate] *)
Definition Cconj (z : complex) : complex := Cx (real z) (- imag z).

(** [np.exp] on a complex number *)
Definition Cexp (z : complex) : complex :=
  Cx (exp (real z) * cos (imag z)) (exp (real z) * sin (imag z)).

(** [np.abs] on a complex number *)
Definition Cabs (z : complex) : R :=
  sqrt (real z * real z + imag z * imag z).

Definition Csum (l : list complex) : complex :=
  fold_right Cadd (Cx 0 0) l.

Definition Rsum (l : list R) : R := fold_right Rplus 0 l.

Definition Rle_bool (x y : R) : bool := if Rle_dec x y then true else false.
Definition Rlt_bool (x y : R) : bool := if Rlt_dec x y then true else false.

(** [np.arctan2(y, x)]: the angle of the point [(x, y)], in [(-pi, pi]];
    [arctan2(0, 0) = 0]. *)
Definition arctan2 (y x : R) : R :=
  if Rlt_bool 0 x then atan (y / x)
  else if Rlt_bool x 0 then
    (if Rle_bool 0 y then atan (y / x) + PI else atan (y / x) - PI)
  else if Rlt_bool 0 y then PI / 2
  else if Rlt_bool y 0 then - (PI / 2)
  else 0.

(** The values of [np.log] on a modulus: a real, or [-inf] at [0]. *)
Inductive ereal : Type :=
| NegInf
| Finite (r : R).

Definition np_log (x : R) : ereal :=
  if Rlt_bool 0 x then Finite (ln x) else NegInf.

(** [-inf + r = -inf] *)
Definition eadd (a b : ereal) : ereal :=
  match a, b with
  | Finite x, Finite y => Finite (x + y)
  | _, _ => NegInf
  end.

Definition esum (l : list ereal) : ereal := fold_right eadd (Finite 0) l.

(** [np.exp] on such a sum: [exp(-inf) = 0]. *)
Definition np_exp (a : ereal) : R :=
  match a with
  | NegInf => 0
  | Finite r => exp r
  end.

(** [np.fft.fft]: [A[k] = sum_m a[m] * exp(-2 pi i m k / N)]. *)
Definition fft (a : list complex) : list complex :=
  let N := List.length a in
  map (fun k =>
         Csum (map (fun ma =>
                      Cmul (snd ma)
                           (Cexp (Cx 0 (- (2 * PI * INR (fst ma) * INR k / INR N)))))
                   (combine (seq 0 N) a)))
      (seq 0 N).

(** *** [PoiBin.get_chi]

    Line by line: [e] has one entry per index, [xy] one row per index and
    one column per probability, the two sums run along the rows. *)
Definition get_chi (p : list R) (omega : R) (idx_array : list nat)
  : list complex :=
  let e := map (fun l => Cexp (Cmul (Cof_real (omega * INR l)) Cj)) idx_array in
  let xy := map (fun el =>
                   map (fun pi => Cadd (Cof_real (1 - pi)) (Cmul (Cof_real pi) el)) p)
                e in
  let argz_sum := map (fun row => Rsum (map (fun z => arctan2 (imag z) (real z)) row)) xy in
  let exparg := map (fun row => esum (map (fun z => np_log (Cabs z)) row)) xy in
  let d := map np_exp exparg in
  map (fun da => Cmul (Cof_real (fst da)) (Cexp (Cmul (Cof_real (snd da)) Cj)))
      (combine d argz_sum).

(** *** [PoiBin.check_xi_are_real] *)

(** [eps = 1e-15]: the binary64 value nearest to the literal, which is
    [0x1.203af9ee75616p-50]. *)
Definition eps : R := float_to_R 0x1.203af9ee75616p-50%float.

Definition check_xi_are_real (xx : list complex) : bool :=
  forallb (fun z => Rle_bool (imag z) eps) xx.

End Numpy.

(** ** [PoiBin.get_pmf_xi] *)

(** [int(x)] on a non-negative or negative rational: truncation toward 0. *)
Definition py_int (q : Q) : Z :=
  Z.quot (Qnum q) (Z.pos (Qden q)).

(** [half_n = int(self.n / 2 + self.n % 2)]: [/] is true division. *)
Definition half_n (n : nat) : nat :=
  Z.to_nat
    (py_int (Qplus
               (Qdiv (inject_Z (Z.of_nat n))
                                 (inject_Z 2))
               (inject_Z (Z.of_nat n mod 2)))).

(** [np.empty(n, dtype=complex)]: the contents are unspecified; every entry
    is assigned before it is read. *)
Definition np_empty_complex (n : nat) : list complex := repeat (Cx 0 0) n.

(** The spectrum before the division: [chi[0] = 1], the first half from
    [get_chi], the second half mirrored from the first. *)
Definition chi_mirrored (p : list R) (n : nat) (omega : R)
  : result (list complex) :=
  let chi := np_empty_complex (n + 1) in
  chi <- setitem chi 0 (Cof_real 1) ;;
  let half_n := half_n n in
  chi <- set_slice chi 1 (half_n + 1)
           (get_chi p omega (arange 1 (half_n + 1))) ;;
  set_slice chi (half_n + 1) (n + 1)
            (map Cconj (rev (slice chi 1 (n - half_n + 1)))).

(** [chi /= self.n + 1] *)
Definition chi_normalised (p : list R) (n : nat) (omega : R)
  : result (list complex) :=
  chi <- chi_mirrored p n omega ;;
  Ok (map (fun z => Cdiv z (Cof_real (INR (n + 1)))) chi).

Definition msg_not_real : string := "pmf / xi values have to be real.".

Definition get_pmf_xi (p : list R) (n : nat) (omega : R) : result (list R) :=
  chi <- chi_normalised p n omega ;;
  let xi := fft chi in
  if check_xi_are_real xi
  then Ok (map real xi)
  else Raise (TypeError msg_not_real).

(** ** [PoiBin.get_cdf] *)

Definition np_empty_real (n : nat) : list R := repeat 0%R n.

(** The body of [for i in range(1, self.n + 1)]. *)
Definition get_cdf_step (xx : list R) (c : list R) (i : nat) : result (list R) :=
  prev <- getitem c (i - 1) ;;
  x <- getitem xx i ;;
  setitem c i (prev + x)%R.

Fixpoint for_each {S A : Type} (body : S -> A -> result S) (s : S) (l : list A)
  : result S :=
  match l with
  | [] => Ok s
  | a :: l' => s' <- body s a ;; for_each body s' l'
  end.

Definition get_cdf (n : nat) (xx : list R) : result (list R) :=
  let c := np_empty_real (n + 1) in
  x0 <- getitem xx 0 ;;
  c <- setitem c 0 x0 ;;
  for_each (get_cdf_step xx) c (arange 1 (n + 1)).

(** ** The object and its constructor *)

Record PoiBin : Type := mk_PoiBin {
  p : ndarray;
  n : nat;
  omega : R;
  pmf_list : list R;
  cdf_list : list R
}.

(** [PoiBin.__init__] *)
Definition init (arr : ndarray) : result PoiBin :=
  let n := size arr in
  check_input_prob arr n ;;;
  let omega := (2 * PI / INR (n + 1))%R in
  pmf_list <- get_pmf_xi (map float_to_R (data arr)) n omega ;;
  cdf_list <- get_cdf n pmf_list ;;
  Ok (mk_PoiBin arr n omega pmf_list cdf_list).

(** ** Requested outcomes *)

(** The runtime types a requested outcome can have that matter to the
    checks. *)
Inductive pytype : Type :=
| t_int
| t_np_int64
| t_np_int32
| t_bool
| t_float.

(** A Python scalar: a value tagged with its runtime type.  A float holds
    the rational it denotes. *)
Inductive pyscalar : Type :=
| PyInt (z : Z)
| NpInt64 (z : Z)
| NpInt32 (z : Z)
| PyBool (b : bool)
| PyFloat (q : Q).

(** [type(k)] *)
Definition type_of (k : pyscalar) : pytype :=
  match k with
  | PyInt _ => t_int
  | NpInt64 _ => t_np_int64
  | NpInt32 _ => t_np_int32
  | PyBool _ => t_bool
  | PyFloat _ => t_float
  end.

Definition pytype_eqb (s t : pytype) : bool :=
  match s, t with
  | t_int, t_int | t_np_int64, t_np_int64 | t_np_int32, t_np_int32
  | t_bool, t_bool | t_float, t_float => true
  | _, _ => false
  end.

(** The number a scalar compares as ([True] is [1], [False] is [0]). *)
Definition num_value (k : pyscalar) : Q :=
  match k with
  | PyInt z | NpInt64 z | NpInt32 z => inject_Z z
  | PyBool b => inject_Z (Z.b2z b)
  | PyFloat q => q
  end.

(** [k >= 0], [k <= n], [k == 0] *)
Definition py_ge0 (k : pyscalar) : bool := Qle_bool (inject_Z 0) (num_value k).
Definition py_le (k : pyscalar) (n : nat) : bool :=
  Qle_bool (num_value k) (inject_Z (Z.of_nat n)).
Definition py_eq0 (k : pyscalar) : bool := Qeq_bool (num_value k) (inject_Z 0).

(** [k - 1]: the type of the result follows the type of [k]. *)
Definition py_pred (k : pyscalar) : pyscalar :=
  match k with
  | PyInt z => PyInt (z - 1)
  | NpInt64 z => NpInt64 (z - 1)
  | NpInt32 z => NpInt32 (z - 1)
  | PyBool b => PyInt (Z.b2z b - 1)
  | PyFloat q => PyFloat (q - inject_Z 1)%Q
  end.

(** What a query receives: one scalar, or a list or array of scalars.
    Iterating over a scalar raises [TypeError], which is how the source
    tells the two apart. *)
Inductive query : Type :=
| Scalar (k : pyscalar)
| Sequence (ks : list pyscalar).

(** What a query returns. *)
Inductive pyval : Type :=
| VInt (z : Z)
| VFloat (r : R)
| VArray (a : list R).

(** ** [PoiBin.check_rv_input] *)

Definition dquote : string := String "034"%char EmptyString.

Definition msg_seq_type : string := "Values in input list must be integers".
Definition msg_seq_negative : string := "Values in input list cannot be negative.".
Definition msg_seq_above : string :=
  ("Values in input list must be smaller or equal to the "
   ++ "number of input probabilities " ++ dquote ++ "n" ++ dquote)%string.
Definition msg_type : string := "Input value must be an integer.".
Definition msg_negative_k : string := "Input value cannot be negative.".

(** [str(n)] *)
Definition py_str_nat (n : nat) : string := NilEmpty.string_of_uint (Nat.to_uint n).

Definition msg_above (n : nat) : string :=
  ("Input value cannot be greater than " ++ py_str_nat n)%string.

(** [type(k) == int or type(k) == np.int64] *)
Definition type_accepted (k : pyscalar) : bool :=
  pytype_eqb (type_of k) t_int || pytype_eqb (type_of k) t_np_int64.

Definition check_rv_input (n : nat) (kk : query) : result bool :=
  match kk with
  | Sequence ks =>
      for_each (fun (_ : unit) k =>
                  py_assert (type_accepted k) msg_seq_type ;;;
                  py_assert (py_ge0 k) msg_seq_negative ;;;
                  py_assert (py_le k n) msg_seq_above)
               tt ks ;;;
      Ok true
  | Scalar k =>
      py_assert (type_accepted k) msg_type ;;;
      py_assert (py_ge0 k) msg_negative_k ;;;
      py_assert (py_le k n) (msg_above n) ;;;
      Ok true
  end.

(** ** The queries *)

Definition msg_bad_index : string :=
  "only integers, slices and integer or boolean arrays are valid indices".

(** [a[k]] for one scalar index: an integer index counts from the end when
    negative.  Floats are no indices; booleans never reach a lookup
    ([check_rv_input] comes first and rejects them). *)
Definition item (a : list R) (k : pyscalar) : result R :=
  match k with
  | PyInt z | NpInt64 z | NpInt32 z =>
      let i := if (z <? 0)%Z then (z + Z.of_nat (List.length a))%Z else z in
      if (i <? 0)%Z then Raise (IndexError msg_index)
      else getitem a (Z.to_nat i)
  | _ => Raise (IndexError msg_bad_index)
  end.

Fixpoint map_result {A B : Type} (f : A -> result B) (l : list A)
  : result (list B) :=
  match l with
  | [] => Ok []
  | a :: l' => b <- f a ;; bs <- map_result f l' ;; Ok (b :: bs)
  end.

(** [a[kk]]: an item for a scalar, an array of items for a list. *)
Definition lookup (a : list R) (kk : query) : result pyval :=
  match kk with
  | Scalar k => v <- item a k ;; Ok (VFloat v)
  | Sequence ks => vs <- map_result (item a) ks ;; Ok (VArray vs)
  end.

Definition pmf (self : PoiBin) (kk : query) : result pyval :=
  check_rv_input (n self) kk ;;;
  lookup (pmf_list self) kk.

Definition cdf (self : PoiBin) (kk : query) : result pyval :=
  check_rv_input (n self) kk ;;;
  lookup (cdf_list self) kk.

Definition msg_sequence_element : string :=
  "setting an array element with a sequence.".

(** The number a returned scalar takes part in arithmetic as. *)
Definition as_number (v : pyval) : result R :=
  match v with
  | VInt z => Ok (IZR z)
  | VFloat r => Ok r
  | VArray _ => Raise (ValueError msg_sequence_element)
  end.

(** The body of [for k in kk] in [pval]; the state is [(fk, i)]. *)
Definition pval_step (self : PoiBin) (st : list R * nat) (k : pyscalar)
  : result (list R * nat) :=
  let (fk, i) := st in
  c <- (v <- cdf self (Scalar k) ;; as_number v) ;;
  m <- (v <- pmf self (Scalar k) ;; as_number v) ;;
  fk <- setitem fk i (1 - c + m)%R ;;
  Ok (fk, (i + 1)%nat).

Definition pval (self : PoiBin) (kk : query) : result pyval :=
  check_rv_input (n self) kk ;;;
  match kk with
  | Sequence ks =>
      let fk := map (fun k => Q2R (num_value k)) ks in
      st <- for_each (pval_step self) (fk, 0%nat) ks ;;
      Ok (VArray (fst st))
  | Scalar k =>
      if py_eq0 k then Ok (VInt 1)
      else c <- (v <- cdf self (Scalar (py_pred k)) ;; as_number v) ;;
           Ok (VFloat (1 - c))
  end.

(** * Vocabulary of the properties

    Definitions the statements and proofs below are written with: none of
    them is part of the source. *)

(** What the three assertions of [check_rv_input] test on one outcome. *)
Definition valid_k (n : nat) (k : pyscalar) : bool :=
  type_accepted k && py_ge0 k && py_le k n.

(** The message of the first assertion that fails on [k]. *)
Definition seq_failure (n : nat) (k : pyscalar) : string :=
  if negb (type_accepted k) then msg_seq_type
  else if negb (py_ge0 k) then msg_seq_negative
  else msg_seq_above.

(** The same for a scalar query. *)
Definition scalar_failure (n : nat) (k : pyscalar) : string :=
  if negb (type_accepted k) then msg_type
  else if negb (py_ge0 k) then msg_negative_k
  else msg_above n.

(** The entry [get_chi] computes for one index [l]. *)
Definition chi_at (p : list R) (omega : R) (l : nat) : complex :=
  let el := Cexp (Cmul (Cof_real (omega * INR l)) Cj) in
  let row := map (fun pi => Cadd (Cof_real (1 - pi)) (Cmul (Cof_real pi) el)) p in
  let argz_sum := Rsum (map (fun z => arctan2 (imag z) (real z)) row) in
  let exparg := esum (map (fun z => np_log (Cabs z)) row) in
  Cmul (Cof_real (np_exp exparg)) (Cexp (Cmul (Cof_real argz_sum) Cj)).

(** The first half, as the source computes it. *)
Definition first_half (p : list R) (n : nat) (omega : R) : list complex :=
  get_chi p omega (arange 1 (half_n n + 1)).

(** What [get_cdf] leaves in [c]. *)
Definition is_prefix_sum (n : nat) (xx c : list R) : Prop :=
  List.length c = (n + 1)%nat /\
  nth 0 c 0%R = nth 0 xx 0%R /\
  forall i, (1 <= i <= n)%nat ->
            nth i c 0%R = (nth (i - 1) c 0 + nth i xx 0)%R.

(** The invariant of the object: both vectors have [n + 1] entries and the
    second is the running sum of the first. *)
Definition well_formed (self : PoiBin) : Prop :=
  List.length (pmf_list self) = (n self + 1)%nat /\
  is_prefix_sum (n self) (pmf_list self) (cdf_list self).

(** The position a validated outcome selects. *)
Definition index_of (k : pyscalar) : nat :=
  match k with
  | PyInt z | NpInt64 z | NpInt32 z => Z.to_nat z
  | PyBool b => Nat.b2n b
  | PyFloat _ => 0%nat
  end.

(** The value the loop of the sequence path stores for [k]. *)
Definition pval_entry (self : PoiBin) (k : pyscalar) : R :=
  (1 - nth (index_of k) (cdf_list self) 0 + nth (index_of k) (pmf_list self) 0)%R.

(** [PoiBin([])] *)
Definition empty_object : PoiBin :=
  mk_PoiBin (np_array_1d []) 0 (2 * PI / INR (0 + 1))%R [1%R] [1%R].

(** [PoiBin([0.0])]: one Bernoulli variable that never succeeds. *)
Definition zero_object : PoiBin :=
  mk_PoiBin (np_array_1d [0%float]) 1 (2 * PI / INR (1 + 1))%R
            [1%R; 0%R] [1%R; (1 + 0)%R].

(** An outcome the queries accept: a Python int or a numpy int64 whose
    value lies in [[0, n]]. *)
Definition valid_outcome (m : nat) (k : pyscalar) : Prop :=
  exists z, (k = PyInt z \/ k = NpInt64 z) /\ (0 <= z <= Z.of_nat m)%Z.

(** The requested outcomes of a query, in the caller's order. *)
Definition outcomes (q : query) : list pyscalar :=
  match q with
  | Scalar k => [k]
  | Sequence ks => ks
  end.

(** What makes [check_rv_input] reject an outcome: a runtime type other
    than Python int and numpy int64, a value below [0], or a value above
    [n]. *)
Definition offending (m : nat) (k : pyscalar) : Prop :=
  (type_of k <> t_int /\ type_of k <> t_np_int64) \/
  (num_value k < inject_Z 0)%Q \/
  (inject_Z (Z.of_nat m) < num_value k)%Q.

(** The six messages of [check_rv_input]; the last one spells the bound
    [n], none spells the requested value. *)
Definition check_messages (m : nat) : list string :=
  [msg_seq_type; msg_seq_negative; msg_seq_above;
   msg_type; msg_negative_k; msg_above m].

(** A scalar whose value is an integer, whatever its runtime type. *)
Definition integer_valued (k : pyscalar) : Prop :=
  exists z, (num_value k == inject_Z z)%Q.

(** A runtime type other than the two [check_rv_input] accepts. *)
Definition other_type (k : pyscalar) : Prop :=
  type_of k <> t_int /\ type_of k <> t_np_int64.

(** The ring of the complex numbers: zero, one, opposite, difference. *)
Definition C0 : complex := Cx 0 0.
Definition C1 : complex := Cx 1 0.
Definition Copp (z : complex) : complex := Cx (- real z) (- imag z).
Definition Csub (z w : complex) : complex := Cadd z (Copp w).















(** * Properties *)

(** ** The result monad *)

Lemma bind_ok_inv {A B : Type} (r : result A) (k : A -> result B) (b : B) :
  bind r k = Ok b -> exists a, r = Ok a /\ k a = Ok b.
Proof.
  destruct r as [a | e]; simpl; intros H; [exists a; auto | discriminate].
Qed.

Lemma bind_raise_inv {A B : Type} (r : result A) (k : A -> result B) (e : exn) :
  bind r k = Raise e -> r = Raise e \/ exists a, r = Ok a /\ k a = Raise e.
Proof.
  destruct r as [a | e']; simpl; intros H.
  - right; exists a; auto.
  - left; congruence.
Qed.

Lemma py_assert_ok (c : bool) (msg : string) :
  py_assert c msg = Ok tt <-> c = true.
Proof.
  unfold py_assert; destruct c; split; intros H; try reflexivity; discriminate.
Qed.

Lemma for_each_app {S A : Type} (body : S -> A -> result S) (s : S) (l1 l2 : list A) :
  for_each body s (l1 ++ l2) = (s' <- for_each body s l1 ;; for_each body s' l2).
Proof.
  revert s; induction l1 as [| a l1 IH]; intros s; simpl; [reflexivity |].
  destruct (body s a) as [s' | e]; simpl; [apply IH | reflexivity].
Qed.

(** ** Validation of the requested outcomes *)

Lemma check_scalar_spec (n : nat) (k : pyscalar) :
  check_rv_input n (Scalar k) =
  if valid_k n k then Ok true else Raise (AssertionError (scalar_failure n k)).
Proof.
  unfold check_rv_input, valid_k, scalar_failure, py_assert.
  destruct (type_accepted k), (py_ge0 k), (py_le k n); reflexivity.
Qed.

Lemma check_sequence_nil (n : nat) : check_rv_input n (Sequence []) = Ok true.
Proof. reflexivity. Qed.

Lemma check_sequence_cons (n : nat) (k : pyscalar) (ks : list pyscalar) :
  check_rv_input n (Sequence (k :: ks)) =
  if valid_k n k then check_rv_input n (Sequence ks)
  else Raise (AssertionError (seq_failure n k)).
Proof.
  unfold check_rv_input, valid_k, seq_failure, py_assert; simpl.
  destruct (type_accepted k), (py_ge0 k), (py_le k n); reflexivity.
Qed.

Lemma check_sequence_ok (n : nat) (ks : list pyscalar) :
  check_rv_input n (Sequence ks) = Ok true <-> forallb (valid_k n) ks = true.
Proof.
  induction ks as [| k ks IH].
  - split; reflexivity.
  - rewrite check_sequence_cons; simpl.
    destruct (valid_k n k); simpl; [exact IH | split; discriminate].
Qed.

(** The sequence check fails at its first invalid element, with that
    element's message. *)
Lemma check_sequence_raise (n : nat) (ks : list pyscalar) :
  forallb (valid_k n) ks = false ->
  exists pre k post,
    ks = pre ++ k :: post /\ forallb (valid_k n) pre = true /\
    valid_k n k = false /\
    check_rv_input n (Sequence ks) = Raise (AssertionError (seq_failure n k)).
Proof.
  induction ks as [| k ks IH]; intros H; simpl in H; [discriminate |].
  rewrite check_sequence_cons.
  destruct (valid_k n k) eqn:Hk; simpl in H.
  - destruct (IH H) as (pre & k' & post & -> & Hpre & Hk' & Hr).
    exists (k :: pre), k', post; simpl; rewrite Hk, Hpre; auto.
  - exists [], k, ks; simpl; auto.
Qed.

Lemma check_result (n : nat) (kk : query) (b : bool) :
  check_rv_input n kk = Ok b -> b = true.
Proof.
  destruct kk as [k | ks].
  - rewrite check_scalar_spec; destruct (valid_k n k); congruence.
  - destruct (forallb (valid_k n) ks) eqn:H.
    + apply check_sequence_ok in H; congruence.
    + destruct (check_sequence_raise n ks H) as (? & ? & ? & _ & _ & _ & Hr); congruence.
Qed.

(** A valid outcome is a Python int or a numpy int64 whose value is in
    [[0, n]]. *)
Lemma valid_k_inv (n : nat) (k : pyscalar) :
  valid_k n k = true ->
  exists z, (k = PyInt z \/ k = NpInt64 z) /\ (0 <= z <= Z.of_nat n)%Z.
Proof.
  unfold valid_k, type_accepted, py_ge0, py_le.
  intros H. apply andb_prop in H as [H Hle]. apply andb_prop in H as [Ht Hge].
  apply Qle_bool_iff in Hle, Hge.
  destruct k as [z | z | z | b | q]; simpl in Ht; try discriminate;
    exists z; simpl in Hle, Hge; rewrite <- Zle_Qle in Hle, Hge; auto.
Qed.

Lemma valid_k_int (n : nat) (z : Z) :
  valid_k n (PyInt z) = ((0 <=? z)%Z && (z <=? Z.of_nat n)%Z).
Proof.
  unfold valid_k, type_accepted, py_ge0, py_le; simpl.
  f_equal.
  - destruct (Z.leb_spec 0 z) as [H | H].
    + apply Qle_bool_iff; rewrite <- Zle_Qle; exact H.
    + destruct (Qle_bool (inject_Z 0) (inject_Z z)) eqn:E; [| reflexivity].
      apply Qle_bool_iff in E; rewrite <- Zle_Qle in E; lia.
  - destruct (Z.leb_spec z (Z.of_nat n)) as [H | H].
    + apply Qle_bool_iff; rewrite <- Zle_Qle; exact H.
    + destruct (Qle_bool (inject_Z z) (inject_Z (Z.of_nat n))) eqn:E; [| reflexivity].
      apply Qle_bool_iff in E; rewrite <- Zle_Qle in E; lia.
Qed.

Lemma valid_k_int64 (n : nat) (z : Z) :
  valid_k n (NpInt64 z) = valid_k n (PyInt z).
Proof. reflexivity. Qed.

(** ** Index arithmetic of the builder *)

Lemma half_n_spec (n : nat) : half_n n = ((n + 1) / 2)%nat.
Proof.
  pose proof (Nat.div_mod_eq (n + 1) 2) as Hd.
  pose proof (Nat.mod_upper_bound (n + 1) 2 ltac:(lia)) as Hr.
  remember ((n + 1) / 2)%nat as h eqn:Eh.
  remember ((n + 1) mod 2)%nat as r eqn:Er.
  clear Eh Er.
  unfold half_n, py_int, Qplus, Qdiv, Qmult, Qinv, inject_Z; simpl.
  rewrite Z.quot_div_nonneg by (pose proof (Z.mod_pos_bound (Z.of_nat n) 2); lia).
  apply Nat2Z.inj. rewrite Z2Nat.id.
  - Z.to_euclidean_division_equations; lia.
  - Z.to_euclidean_division_equations; lia.
Qed.

Lemma half_n_le (n : nat) : (half_n n <= n)%nat.
Proof.
  rewrite half_n_spec.
  pose proof (Nat.div_mod_eq (n + 1) 2).
  pose proof (Nat.mod_upper_bound (n + 1) 2 ltac:(lia)).
  destruct n as [| n']; [reflexivity | lia].
Qed.

Lemma half_n_mirror (n : nat) : (n - half_n n <= half_n n)%nat.
Proof.
  rewrite half_n_spec.
  pose proof (Nat.div_mod_eq (n + 1) 2).
  pose proof (Nat.mod_upper_bound (n + 1) 2 ltac:(lia)).
  lia.
Qed.

(** ** The first half of the spectrum, index by index *)

Lemma combine_map_same {A B C : Type} (f : A -> B) (g : A -> C) (l : list A) :
  combine (map f l) (map g l) = map (fun x => (f x, g x)) l.
Proof.
  induction l as [| a l IH]; simpl; [reflexivity | now rewrite IH].
Qed.

Lemma get_chi_map (p : list R) (omega : R) (idx : list nat) :
  get_chi p omega idx = map (chi_at p omega) idx.
Proof.
  unfold get_chi. rewrite !map_map, combine_map_same, map_map. reflexivity.
Qed.

Lemma get_chi_length (p : list R) (omega : R) (idx : list nat) :
  List.length (get_chi p omega idx) = List.length idx.
Proof. rewrite get_chi_map. apply length_map. Qed.

Lemma arange_length (i j : nat) : List.length (arange i j) = (j - i)%nat.
Proof. apply length_seq. Qed.

Lemma skipn_repeat {A : Type} (x : A) (k m : nat) :
  skipn k (repeat x m) = repeat x (m - k).
Proof.
  revert m; induction k as [| k IH]; intros m.
  - now rewrite Nat.sub_0_r.
  - destruct m as [| m]; simpl; [reflexivity | apply IH].
Qed.

Lemma first_half_length (p : list R) (n : nat) (omega : R) :
  List.length (first_half p n omega) = half_n n.
Proof.
  unfold first_half. rewrite get_chi_length, arange_length. lia.
Qed.

(** The builder never fails, and this is the array it leaves before the
    division: [1], the first half, and the conjugates of the first
    [n - half_n] entries of the first half in reverse order. *)
Lemma chi_mirrored_eq (p : list R) (n : nat) (omega : R) :
  chi_mirrored p n omega =
  Ok (Cof_real 1 :: first_half p n omega
        ++ map Cconj (rev (firstn (n - half_n n) (first_half p n omega)))).
Proof.
  unfold chi_mirrored, np_empty_complex.
  fold (first_half p n omega).
  pose proof (first_half_length p n omega) as HL.
  pose proof (half_n_le n) as Hle.
  pose proof (half_n_mirror n) as Hmir.
  set (H := first_half p n omega) in *.
  set (h := half_n n) in *.
  replace (n + 1)%nat with (S n) by lia.
  unfold setitem. simpl repeat. simpl List.length. simpl Nat.ltb. cbv iota.
  simpl firstn. simpl skipn. simpl app. simpl bind.
  assert (E1 : set_slice (Cof_real 1 :: repeat (Cx 0 0) n) 1 (h + 1) H =
               Ok (Cof_real 1 :: H ++ repeat (Cx 0 0) (n - h))).
  { unfold set_slice. simpl List.length. rewrite repeat_length.
    replace (Nat.min 1 (S n)) with 1%nat by lia.
    replace (Nat.max 1 (Nat.min (h + 1) (S n))) with (S h) by lia.
    replace (S h - 1)%nat with h by lia.
    rewrite HL, Nat.eqb_refl. simpl firstn. simpl skipn.
    rewrite skipn_repeat. reflexivity. }
  rewrite E1. simpl bind.
  assert (E2 : slice (Cof_real 1 :: H ++ repeat (Cx 0 0) (n - h)) 1 (n - h + 1) =
               firstn (n - h) H).
  { unfold slice. simpl skipn. replace (n - h + 1 - 1)%nat with (n - h)%nat by lia.
    rewrite firstn_app. replace (n - h - List.length H)%nat with 0%nat by lia.
    simpl. apply app_nil_r. }
  rewrite E2.
  unfold set_slice. simpl List.length. rewrite length_app, repeat_length, HL.
  replace (Nat.min (h + 1) (S (h + (n - h)))) with (S h) by lia.
  replace (Nat.max (S h) (Nat.min (S n) (S (h + (n - h))))) with (S n) by lia.
  rewrite length_map, length_rev, length_firstn, HL.
  replace (Nat.min (n - h) h) with (n - h)%nat by lia.
  replace (S n - S h)%nat with (n - h)%nat by lia.
  rewrite Nat.eqb_refl.
  simpl firstn. rewrite firstn_app, HL, Nat.sub_diag. simpl firstn at 2.
  rewrite app_nil_r, <- HL, firstn_all, HL.
  simpl skipn. rewrite skipn_app, HL.
  replace (n - h)%nat with (n - h)%nat by lia.
  rewrite skipn_all2 by (rewrite HL; lia).
  rewrite skipn_repeat. replace (n - h - (n - h))%nat with 0%nat by lia.
  simpl. rewrite app_nil_r. reflexivity.
Qed.

Lemma chi_mirrored_length (p : list R) (n : nat) (omega : R) (chi : list complex) :
  chi_mirrored p n omega = Ok chi -> List.length chi = (n + 1)%nat.
Proof.
  rewrite chi_mirrored_eq. intros H; injection H as <-.
  simpl. rewrite length_app, length_map, length_rev, length_firstn, first_half_length.
  pose proof (half_n_le n); pose proof (half_n_mirror n); lia.
Qed.

Lemma chi_normalised_eq (p : list R) (n : nat) (omega : R) :
  exists chi,
    chi_mirrored p n omega = Ok chi /\
    chi_normalised p n omega =
    Ok (map (fun z => Cdiv z (Cof_real (INR (n + 1)))) chi).
Proof.
  unfold chi_normalised. rewrite chi_mirrored_eq. eexists; split; reflexivity.
Qed.

Lemma chi_normalised_length (p : list R) (n : nat) (omega : R) (chi : list complex) :
  chi_normalised p n omega = Ok chi -> List.length chi = (n + 1)%nat.
Proof.
  destruct (chi_normalised_eq p n omega) as (c & Hc & ->).
  intros H; injection H as <-. rewrite length_map.
  exact (chi_mirrored_length _ _ _ _ Hc).
Qed.

Lemma fft_length (a : list complex) : List.length (fft a) = List.length a.
Proof. unfold fft. now rewrite length_map, length_seq. Qed.

Lemma get_pmf_xi_length (p : list R) (n : nat) (omega : R) (xi : list R) :
  get_pmf_xi p n omega = Ok xi -> List.length xi = (n + 1)%nat.
Proof.
  unfold get_pmf_xi. intros H.
  apply bind_ok_inv in H as (chi & Hchi & H).
  destruct (check_xi_are_real (fft chi)); [| discriminate].
  injection H as <-. rewrite length_map, fft_length.
  exact (chi_normalised_length _ _ _ _ Hchi).
Qed.

(** [get_pmf_xi] raises nothing but the [TypeError] of the reality check. *)
Lemma get_pmf_xi_raise (p : list R) (n : nat) (omega : R) (e : exn) :
  get_pmf_xi p n omega = Raise e -> e = TypeError msg_not_real.
Proof.
  unfold get_pmf_xi.
  destruct (chi_normalised_eq p n omega) as (c & _ & ->). simpl.
  destruct (check_xi_are_real _); [discriminate | congruence].
Qed.

(** ** The prefix sums of [get_cdf] *)

Lemma getitem_nth {A : Type} (a : list A) (i : nat) (d : A) :
  (i < List.length a)%nat -> getitem a i = Ok (nth i a d).
Proof.
  intros H. unfold getitem. now rewrite (nth_error_nth' a d H).
Qed.

Lemma setitem_ok {A : Type} (a : list A) (i : nat) (v : A) :
  (i < List.length a)%nat ->
  setitem a i v = Ok (firstn i a ++ v :: skipn (S i) a).
Proof.
  intros H. unfold setitem. apply Nat.ltb_lt in H. now rewrite H.
Qed.

Lemma update_length {A : Type} (a : list A) (i : nat) (v : A) :
  (i < List.length a)%nat ->
  List.length (firstn i a ++ v :: skipn (S i) a) = List.length a.
Proof.
  intros H. rewrite length_app, length_firstn. cbn [Datatypes.length].
  rewrite length_skipn. lia.
Qed.

Lemma update_nth_same {A : Type} (a : list A) (i : nat) (v d : A) :
  (i < List.length a)%nat ->
  nth i (firstn i a ++ v :: skipn (S i) a) d = v.
Proof.
  intros H. rewrite app_nth2; rewrite length_firstn; [| lia].
  replace (i - Nat.min i (List.length a))%nat with 0%nat by lia. reflexivity.
Qed.

Lemma update_nth_other {A : Type} (a : list A) (i k : nat) (v d : A) :
  (i < List.length a)%nat -> k <> i ->
  nth k (firstn i a ++ v :: skipn (S i) a) d = nth k a d.
Proof.
  revert i k. induction a as [| x a IH]; intros i k H Hk; simpl in H; [lia |].
  destruct i as [| i], k as [| k]; simpl; try reflexivity; try congruence.
  apply IH; lia.
Qed.

(** Loops over [range]: an invariant indexed by the loop variable. *)
Lemma for_each_seq_inv {S : Type} (body : S -> nat -> result S)
      (Inv : nat -> S -> Prop) (len start : nat) (s : S) :
  Inv start s ->
  (forall i t, (start <= i < start + len)%nat -> Inv i t ->
               exists t', body t i = Ok t' /\ Inv (Datatypes.S i) t') ->
  exists t, for_each body s (seq start len) = Ok t /\ Inv (start + len)%nat t.
Proof.
  revert start s. induction len as [| len IH]; intros start s H0 Hstep.
  - exists s. rewrite Nat.add_0_r. split; [reflexivity | exact H0].
  - simpl. destruct (Hstep start s ltac:(lia) H0) as (t' & Hb & Hi).
    rewrite Hb. simpl.
    destruct (IH (Datatypes.S start) t' Hi) as (t & Ht & Hinv).
    + intros i u Hi' Hu. apply Hstep; [lia | exact Hu].
    + exists t. split; [exact Ht |].
      replace (start + Datatypes.S len)%nat with (Datatypes.S start + len)%nat by lia.
      exact Hinv.
Qed.

Lemma get_cdf_spec (n : nat) (xx : list R) :
  List.length xx = (n + 1)%nat ->
  exists c, get_cdf n xx = Ok c /\ is_prefix_sum n xx c.
Proof.
  intros HL. unfold get_cdf, np_empty_real, arange.
  rewrite (getitem_nth xx _ 0%R) by lia. simpl bind.
  rewrite setitem_ok by (rewrite repeat_length; lia). simpl bind.
  replace (n + 1 - 1)%nat with n by lia.
  set (c0 := firstn 0 (repeat 0%R (n + 1)) ++ nth 0 xx 0%R :: skipn 1 (repeat 0%R (n + 1))).
  set (Inv := fun (i : nat) (c : list R) =>
                List.length c = (n + 1)%nat /\
                nth 0 c 0%R = nth 0 xx 0%R /\
                forall k, (1 <= k < i)%nat ->
                          nth k c 0%R = (nth (k - 1) c 0 + nth k xx 0)%R).
  destruct (@for_each_seq_inv _ (get_cdf_step xx) Inv n 1%nat c0) as (c & Hc & Hlen & H0 & Hs).
  - unfold Inv, c0. split; [| split].
    + rewrite update_length; rewrite repeat_length; lia.
    + reflexivity.
    + intros k Hk; lia.
  - intros i t Hi (Hlen & H0 & Hs). unfold get_cdf_step.
    rewrite (getitem_nth t _ 0%R) by lia. simpl bind.
    rewrite (getitem_nth xx _ 0%R) by lia. simpl bind.
    rewrite setitem_ok by lia.
    eexists; split; [reflexivity |]. unfold Inv. split; [| split].
    + rewrite update_length; lia.
    + rewrite update_nth_other by lia. exact H0.
    + intros k Hk. destruct (Nat.eq_dec k i) as [-> | Hne].
      * rewrite update_nth_same by lia.
        rewrite update_nth_other by lia. reflexivity.
      * rewrite !update_nth_other by lia. apply Hs; lia.
  - exists c. split; [exact Hc |]. split; [exact Hlen | split; [exact H0 |]].
    intros i Hi. apply Hs; lia.
Qed.

Lemma get_cdf_no_raise (n : nat) (xx : list R) (e : exn) :
  List.length xx = (n + 1)%nat -> get_cdf n xx <> Raise e.
Proof.
  intros HL. destruct (get_cdf_spec n xx HL) as (c & -> & _). discriminate.
Qed.

(** ** What a constructed object holds *)

Lemma check_input_prob_ok (arr : ndarray) (m : nat) :
  check_input_prob arr m = Ok tt <->
  shape arr = [m] /\ np_all_ge0 (data arr) = true /\ np_all_le1 (data arr) = true.
Proof.
  unfold check_input_prob, shape_eqb.
  destruct (list_eq_dec Nat.eq_dec (shape arr) [m]) as [E | E]; simpl.
  - destruct (np_all_ge0 (data arr)); simpl.
    + destruct (np_all_le1 (data arr)); simpl; split;
        intros H; try discriminate; auto; destruct H as (_ & _ & H); discriminate.
    + split; [discriminate | intros (_ & H & _); discriminate].
  - split; [discriminate | intros (H & _); contradiction].
Qed.

Lemma init_inv (arr : ndarray) (self : PoiBin) :
  init arr = Ok self ->
  p self = arr /\ n self = size arr /\
  omega self = (2 * PI / INR (size arr + 1))%R /\
  check_input_prob arr (size arr) = Ok tt /\
  get_pmf_xi (map float_to_R (data arr)) (size arr) (omega self) = Ok (pmf_list self) /\
  get_cdf (size arr) (pmf_list self) = Ok (cdf_list self).
Proof.
  unfold init. intros H.
  apply bind_ok_inv in H as ([] & Hc & H).
  apply bind_ok_inv in H as (pm & Hp & H).
  apply bind_ok_inv in H as (cd & Hd & H).
  injection H as <-. simpl. repeat (split; [auto |]). exact Hd.
Qed.

Lemma init_well_formed (arr : ndarray) (self : PoiBin) :
  init arr = Ok self -> well_formed self.
Proof.
  intros H. destruct (init_inv arr self H) as (_ & Hn & _ & _ & Hp & Hd).
  pose proof (get_pmf_xi_length _ _ _ _ Hp) as HL.
  destruct (get_cdf_spec (size arr) (pmf_list self) HL) as (c & Hc & Hs).
  rewrite Hc in Hd; injection Hd as ->.
  unfold well_formed. rewrite Hn. split; assumption.
Qed.

Lemma well_formed_cdf_length (self : PoiBin) :
  well_formed self -> List.length (cdf_list self) = (n self + 1)%nat.
Proof. intros (_ & H & _); exact H. Qed.

(** ** Lookups on validated outcomes *)

Lemma item_valid (m : nat) (a : list R) (k : pyscalar) :
  List.length a = (m + 1)%nat -> valid_k m k = true ->
  item a k = Ok (nth (index_of k) a 0%R).
Proof.
  intros HL Hv. destruct (valid_k_inv m k Hv) as (z & [-> | ->] & Hz); simpl;
    (destruct (Z.ltb_spec z 0) as [? | _]; [lia |]);
    (destruct (Z.ltb_spec z 0) as [? | _]; [lia |]);
    apply getitem_nth; lia.
Qed.


Lemma map_result_item_valid (m : nat) (a : list R) (ks : list pyscalar) :
  List.length a = (m + 1)%nat -> forallb (valid_k m) ks = true ->
  map_result (item a) ks = Ok (map (fun k => nth (index_of k) a 0%R) ks).
Proof.
  intros HL. induction ks as [| k ks IH]; simpl; [reflexivity |].
  intros H. apply andb_prop in H as [Hk Hks].
  rewrite (item_valid m a k HL Hk). simpl. rewrite (IH Hks). reflexivity.
Qed.

Lemma lookup_scalar_valid (m : nat) (a : list R) (k : pyscalar) :
  List.length a = (m + 1)%nat -> valid_k m k = true ->
  lookup a (Scalar k) = Ok (VFloat (nth (index_of k) a 0%R)).
Proof.
  intros HL Hv. unfold lookup. now rewrite (item_valid m a k HL Hv).
Qed.

Lemma lookup_sequence_valid (m : nat) (a : list R) (ks : list pyscalar) :
  List.length a = (m + 1)%nat -> forallb (valid_k m) ks = true ->
  lookup a (Sequence ks) = Ok (VArray (map (fun k => nth (index_of k) a 0%R) ks)).
Proof.
  intros HL Hv. unfold lookup. now rewrite (map_result_item_valid m a ks HL Hv).
Qed.

Lemma pmf_scalar_valid (self : PoiBin) (k : pyscalar) :
  well_formed self -> valid_k (n self) k = true ->
  pmf self (Scalar k) = Ok (VFloat (nth (index_of k) (pmf_list self) 0%R)).
Proof.
  intros (HL & _) Hv. unfold pmf. rewrite check_scalar_spec, Hv. simpl.
  exact (lookup_scalar_valid (n self) _ k HL Hv).
Qed.

Lemma cdf_scalar_valid (self : PoiBin) (k : pyscalar) :
  well_formed self -> valid_k (n self) k = true ->
  cdf self (Scalar k) = Ok (VFloat (nth (index_of k) (cdf_list self) 0%R)).
Proof.
  intros Hwf Hv. unfold cdf. rewrite check_scalar_spec, Hv. simpl.
  exact (lookup_scalar_valid (n self) _ k (well_formed_cdf_length self Hwf) Hv).
Qed.

Lemma pmf_sequence_valid (self : PoiBin) (ks : list pyscalar) :
  well_formed self -> forallb (valid_k (n self)) ks = true ->
  pmf self (Sequence ks) =
  Ok (VArray (map (fun k => nth (index_of k) (pmf_list self) 0%R) ks)).
Proof.
  intros (HL & _) Hv. unfold pmf.
  rewrite (proj2 (check_sequence_ok (n self) ks) Hv). simpl.
  exact (lookup_sequence_valid (n self) _ ks HL Hv).
Qed.

Lemma cdf_sequence_valid (self : PoiBin) (ks : list pyscalar) :
  well_formed self -> forallb (valid_k (n self)) ks = true ->
  cdf self (Sequence ks) =
  Ok (VArray (map (fun k => nth (index_of k) (cdf_list self) 0%R) ks)).
Proof.
  intros Hwf Hv. unfold cdf.
  rewrite (proj2 (check_sequence_ok (n self) ks) Hv). simpl.
  exact (lookup_sequence_valid (n self) _ ks (well_formed_cdf_length self Hwf) Hv).
Qed.

(** ** The two paths of [pval] *)

Lemma py_eq0_valid (m : nat) (k : pyscalar) :
  valid_k m k = true -> py_eq0 k = (index_of k =? 0)%nat.
Proof.
  intros Hv. destruct (valid_k_inv m k Hv) as (z & [-> | ->] & Hz);
    unfold py_eq0; simpl;
    (destruct (Nat.eqb_spec (Z.to_nat z) 0) as [E | E];
     [ apply Qeq_bool_iff; unfold Qeq; simpl; lia
     | destruct (Qeq_bool (inject_Z z) (inject_Z 0)) eqn:Q; [| reflexivity];
       apply Qeq_bool_iff in Q; unfold Qeq in Q; simpl in Q; lia ]).
Qed.

Lemma py_pred_valid (m : nat) (k : pyscalar) :
  valid_k m k = true -> index_of k <> 0%nat ->
  valid_k m (py_pred k) = true /\ index_of (py_pred k) = (index_of k - 1)%nat.
Proof.
  intros Hv Hne. destruct (valid_k_inv m k Hv) as (z & [-> | ->] & Hz);
    simpl in Hne |- *; rewrite ?valid_k_int64, valid_k_int;
    (split; [apply andb_true_intro; split; apply Z.leb_le; lia | lia]).
Qed.

Lemma pval_scalar_valid (self : PoiBin) (k : pyscalar) :
  well_formed self -> valid_k (n self) k = true ->
  pval self (Scalar k) =
  if (index_of k =? 0)%nat then Ok (VInt 1)
  else Ok (VFloat (1 - nth (index_of k - 1) (cdf_list self) 0))%R.
Proof.
  intros Hwf Hv. unfold pval. rewrite check_scalar_spec, Hv. simpl bind.
  rewrite (py_eq0_valid (n self) k Hv).
  destruct (Nat.eqb_spec (index_of k) 0) as [E | E]; [reflexivity |].
  destruct (py_pred_valid (n self) k Hv E) as (Hv' & Hi).
  rewrite (cdf_scalar_valid self (py_pred k) Hwf Hv'), Hi. reflexivity.
Qed.

Lemma setitem_middle {A : Type} (done rest : list A) (r v : A) :
  setitem (done ++ r :: rest) (List.length done) v = Ok (done ++ v :: rest).
Proof.
  rewrite setitem_ok by (rewrite length_app; simpl; lia).
  rewrite firstn_app, Nat.sub_diag, firstn_all. simpl firstn. rewrite app_nil_r.
  change (S (List.length done)) with (1 + List.length done)%nat.
  rewrite <- skipn_skipn.
  rewrite skipn_app, Nat.sub_diag, skipn_all. reflexivity.
Qed.

Lemma pval_loop (self : PoiBin) (ks : list pyscalar) :
  well_formed self -> forallb (valid_k (n self)) ks = true ->
  forall (done todo : list R),
    List.length todo = List.length ks ->
    for_each (pval_step self) (done ++ todo, List.length done) ks =
    Ok (done ++ map (pval_entry self) ks, (List.length done + List.length ks)%nat).
Proof.
  intros Hwf. induction ks as [| k ks IH]; intros Hv done todo HL.
  - destruct todo; [| discriminate]. simpl. now rewrite Nat.add_0_r.
  - destruct todo as [| r todo]; [discriminate |].
    simpl in Hv. apply andb_prop in Hv as [Hk Hks].
    cbn [for_each]. unfold pval_step at 1.
    rewrite (cdf_scalar_valid self k Hwf Hk), (pmf_scalar_valid self k Hwf Hk).
    simpl bind. rewrite setitem_middle. simpl bind.
    fold (pval_entry self k).
    replace (done ++ pval_entry self k :: todo)
      with ((done ++ [pval_entry self k]) ++ todo)
      by (rewrite <- app_assoc; reflexivity).
    replace (List.length done + 1)%nat with (List.length (done ++ [pval_entry self k]))
      by (rewrite length_app; reflexivity).
    rewrite (IH Hks) by (simpl in HL; lia).
    rewrite <- app_assoc, length_app. simpl. f_equal. f_equal. lia.
Qed.

Lemma pval_sequence_valid (self : PoiBin) (ks : list pyscalar) :
  well_formed self -> forallb (valid_k (n self)) ks = true ->
  pval self (Sequence ks) = Ok (VArray (map (pval_entry self) ks)).
Proof.
  intros Hwf Hv. unfold pval.
  rewrite (proj2 (check_sequence_ok (n self) ks) Hv). simpl bind.
  pose proof (pval_loop self ks Hwf Hv [] (map (fun k => Q2R (num_value k)) ks)
                        (length_map _ _)) as HLp.
  cbn [app Datatypes.length Nat.add] in HLp. rewrite HLp. reflexivity.
Qed.

(** ** Small facts on the numpy functions *)

Lemma eps_pos : (0 < eps)%R.
Proof.
  unfold eps, float_to_R.
  replace (Prim2SF 0x1.203af9ee75616p-50%float)
    with (S754_finite false 5070602400912918 (-102))
    by (vm_compute; reflexivity).
  unfold SF2R. apply Rmult_lt_0_compat.
  - apply IZR_lt. reflexivity.
  - apply powerRZ_lt. lra.
Qed.

Lemma Rle_bool_true (x y : R) : (x <= y)%R -> Rle_bool x y = true.
Proof. intros H. unfold Rle_bool. destruct (Rle_dec x y); [reflexivity | contradiction]. Qed.

Lemma Rle_bool_false (x y : R) : (y < x)%R -> Rle_bool x y = false.
Proof. intros H. unfold Rle_bool. destruct (Rle_dec x y); [lra | reflexivity]. Qed.

Lemma Rlt_bool_true (x y : R) : (x < y)%R -> Rlt_bool x y = true.
Proof. intros H. unfold Rlt_bool. destruct (Rlt_dec x y); [reflexivity | contradiction]. Qed.


Lemma Cx_eq (a b c d : R) : a = c -> b = d -> Cx a b = Cx c d.
Proof. intros -> ->; reflexivity. Qed.

Lemma Cexp_0 (t : R) : t = 0%R -> Cexp (Cx 0 t) = Cx 1 0.
Proof.
  intros ->. unfold Cexp; simpl. rewrite exp_0, cos_0, sin_0.
  apply Cx_eq; ring.
Qed.

Lemma fft_singleton (z : complex) : fft [z] = [z].
Proof.
  unfold fft. simpl. rewrite Cexp_0 by (unfold Rdiv; ring).
  destruct z as [a b]. unfold Csum, Cmul, Cadd; simpl.
  f_equal. apply Cx_eq; ring.
Qed.

Lemma Cdiv_real (z : complex) (x : R) :
  x <> 0%R -> Cdiv z (Cof_real x) = Cx (real z / x) (imag z / x).
Proof.
  intros Hx. unfold Cdiv, Cof_real; simpl. apply Cx_eq; field; auto.
Qed.

(** ** Two constructed objects, evaluated *)

Lemma half_n_0 : half_n 0 = 0%nat.
Proof. reflexivity. Qed.

Lemma half_n_1 : half_n 1 = 1%nat.
Proof. reflexivity. Qed.

Lemma first_half_empty (w : R) : first_half [] 0 w = [].
Proof. reflexivity. Qed.

Lemma get_pmf_xi_empty (w : R) : get_pmf_xi [] 0 w = Ok [1%R].
Proof.
  unfold get_pmf_xi, chi_normalised. rewrite chi_mirrored_eq, first_half_empty.
  cbn [bind app firstn rev map].
  rewrite Cdiv_real by (simpl; lra).
  rewrite fft_singleton. unfold check_xi_are_real, forallb.
  cbn [imag real Cof_real map]. rewrite Rle_bool_true.
  - cbn [andb]. f_equal. f_equal. simpl. field.
  - unfold Rdiv. rewrite Rmult_0_l. apply Rlt_le, eps_pos.
Qed.

Lemma init_empty : init (np_array_1d []) = Ok empty_object.
Proof.
  unfold init. change (size (np_array_1d [])) with 0%nat.
  change (check_input_prob (np_array_1d []) 0) with (Ok tt).
  cbn [bind data np_array_1d map].
  rewrite get_pmf_xi_empty. cbn [bind].
  reflexivity.
Qed.

Lemma Cexp_zero (z : complex) :
  real z = 0%R -> imag z = 0%R -> Cexp z = Cx 1 0.
Proof.
  intros Hr Hi. unfold Cexp. rewrite Hr, Hi, exp_0, cos_0, sin_0.
  apply Cx_eq; ring.
Qed.

Lemma Cexp_neg_pi (t : R) : t = (- PI)%R -> Cexp (Cx 0 t) = Cx (-1) 0.
Proof.
  intros ->. unfold Cexp; simpl. rewrite exp_0, cos_neg, sin_neg, cos_PI, sin_PI.
  apply Cx_eq; ring.
Qed.

(** The transform of two points. *)
Lemma fft_pair (a b c d : R) :
  fft [Cx a b; Cx c d] = [Cx (a + c) (b + d); Cx (a - c) (b - d)].
Proof.
  unfold fft. cbn [List.length seq combine map fst snd Csum fold_right].
  rewrite !(Cexp_0 (- (2 * PI * INR 0 * _ / _))) by (simpl; unfold Rdiv; ring).
  rewrite !(Cexp_0 (- (2 * PI * _ * INR 0 / _))) by (simpl; unfold Rdiv; ring).
  rewrite (Cexp_neg_pi (- (2 * PI * INR 1 * INR 1 / INR 2))) by (simpl; field).
  unfold Cadd, Cmul; cbn [real imag].
  f_equal; [| f_equal]; apply Cx_eq; ring.
Qed.

(** With the single probability [0] the first half is [1] whatever the
    frequency. *)
Lemma chi_at_zero (w : R) (l : nat) : chi_at [0%R] w l = Cx 1 0.
Proof.
  unfold chi_at. cbn [map].
  set (el := Cexp (Cmul (Cof_real (w * INR l)) Cj)).
  replace (Cadd (Cof_real (1 - 0)) (Cmul (Cof_real 0) el)) with (Cx 1 0)
    by (destruct el; unfold Cadd, Cmul, Cof_real; cbn [real imag]; apply Cx_eq; ring).
  cbn [real imag Rsum esum fold_right].
  replace (arctan2 0 1) with 0%R.
  2: { unfold arctan2. rewrite Rlt_bool_true by lra.
       replace (0 / 1)%R with 0%R by field. symmetry; apply atan_0. }
  replace (Cabs (Cx 1 0)) with 1%R.
  2: { unfold Cabs; cbn [real imag].
       replace (1 * 1 + 0 * 0)%R with 1%R by ring. symmetry; apply sqrt_1. }
  unfold np_log. rewrite Rlt_bool_true by lra. rewrite ln_1.
  cbn [eadd np_exp].
  rewrite Cexp_zero by (unfold Cmul, Cof_real, Cj; cbn [real imag]; ring).
  replace (0 + 0)%R with 0%R by ring. rewrite exp_0.
  unfold Cmul, Cof_real; cbn [real imag]. apply Cx_eq; ring.
Qed.

Lemma get_pmf_xi_zero (w : R) : get_pmf_xi [0%R] 1 w = Ok [1%R; 0%R].
Proof.
  unfold get_pmf_xi, chi_normalised. rewrite chi_mirrored_eq.
  unfold first_half. rewrite get_chi_map, half_n_1.
  cbn [arange Nat.add Nat.sub seq map]. rewrite chi_at_zero.
  cbn [bind app firstn rev map].
  rewrite !Cdiv_real by (simpl; lra).
  cbn [Cof_real Cconj real imag INR Nat.add].
  rewrite fft_pair. unfold check_xi_are_real, forallb.
  cbn [imag real map].
  rewrite !Rle_bool_true by (pose proof eps_pos; lra).
  cbn [andb]. f_equal. f_equal; [| f_equal]; field.
Qed.

Lemma float_to_R_zero : float_to_R 0%float = 0%R.
Proof.
  unfold float_to_R.
  replace (Prim2SF 0%float) with (S754_zero false) by (vm_compute; reflexivity).
  reflexivity.
Qed.

Lemma init_zero : init (np_array_1d [0%float]) = Ok zero_object.
Proof.
  unfold init. change (size (np_array_1d [0%float])) with 1%nat.
  replace (check_input_prob (np_array_1d [0%float]) 1) with (Ok tt)
    by (vm_compute; reflexivity).
  cbn [bind data np_array_1d map]. rewrite float_to_R_zero.
  rewrite get_pmf_xi_zero. cbn [bind].
  reflexivity.
Qed.

(** ** Valid outcomes *)

Lemma valid_k_iff (m : nat) (k : pyscalar) :
  valid_k m k = true <-> valid_outcome m k.
Proof.
  split.
  - apply valid_k_inv.
  - intros (z & [-> | ->] & Hz); rewrite ?valid_k_int64, valid_k_int;
      apply andb_true_intro; split; apply Z.leb_le; lia.
Qed.

Lemma valid_outcomes_forallb (m : nat) (ks : list pyscalar) :
  Forall (valid_outcome m) ks <-> forallb (valid_k m) ks = true.
Proof.
  rewrite forallb_forall, Forall_forall.
  split; intros H k Hk; apply valid_k_iff, H, Hk.
Qed.

Lemma Forall2_map_right {A B : Type} (P : A -> B -> Prop) (f : A -> B) (l : list A) :
  Forall (fun a => P a (f a)) l -> Forall2 P l (map f l).
Proof.
  induction 1; simpl; constructor; assumption.
Qed.

(** ** The scalar path of [pval] *)



(** ** The sequence path of [pval] *)




Lemma valid_outcome_zero_object_1 : valid_outcome (n zero_object) (PyInt 1).
Proof. exists 1%Z. split; [left; reflexivity | simpl; lia]. Qed.

Lemma valid_outcome_zero_object_0 : valid_outcome (n zero_object) (NpInt64 0).
Proof. exists 0%Z. split; [right; reflexivity | simpl; lia]. Qed.

Lemma valid_outcomes_zero_object :
  Forall (valid_outcome (n zero_object)) [PyInt 1; NpInt64 0; PyInt 1].
Proof.
  repeat constructor;
    [exact valid_outcome_zero_object_1 | exact valid_outcome_zero_object_0
     | exact valid_outcome_zero_object_1].
Qed.


(** ** Batch queries against scalar queries *)

(** C8: on a constructed object and for a sequence of valid outcomes,
    [pmf(k_list)] is an array with one entry per requested outcome, in the
    caller's order, and each entry is what [pmf] returns for that outcome
    alone; the same holds for [cdf]. *)
Theorem batch_is_elementwise (arr : ndarray) (self : PoiBin) (ks : list pyscalar) :
  init arr = Ok self ->
  Forall (valid_outcome (n self)) ks ->
  (exists vs, pmf self (Sequence ks) = Ok (VArray vs) /\
              List.length vs = List.length ks /\
              Forall2 (fun k v => pmf self (Scalar k) = Ok (VFloat v)) ks vs) /\
  (exists vs, cdf self (Sequence ks) = Ok (VArray vs) /\
              List.length vs = List.length ks /\
              Forall2 (fun k v => cdf self (Scalar k) = Ok (VFloat v)) ks vs).
Proof.
  intros Hinit Hks.
  pose proof (init_well_formed arr self Hinit) as Hwf.
  pose proof (proj1 (valid_outcomes_forallb (n self) ks) Hks) as Hb.
  rewrite Forall_forall in Hks.
  split.
  - exists (map (fun k => nth (index_of k) (pmf_list self) 0%R) ks).
    split; [exact (pmf_sequence_valid self ks Hwf Hb) |].
    split; [apply length_map |].
    apply Forall2_map_right, Forall_forall. intros k Hk.
    apply pmf_scalar_valid; [exact Hwf | apply valid_k_iff, Hks, Hk].
  - exists (map (fun k => nth (index_of k) (cdf_list self) 0%R) ks).
    split; [exact (cdf_sequence_valid self ks Hwf Hb) |].
    split; [apply length_map |].
    apply Forall2_map_right, Forall_forall. intros k Hk.
    apply cdf_scalar_valid; [exact Hwf | apply valid_k_iff, Hks, Hk].
Qed.

Lemma batch_is_elementwise_witness :
  init (np_array_1d [0%float]) = Ok zero_object /\
  Forall (valid_outcome (n zero_object)) [PyInt 1; NpInt64 0; PyInt 1] /\
  (exists vs, pmf zero_object (Sequence [PyInt 1; NpInt64 0; PyInt 1]) = Ok (VArray vs) /\
              List.length vs = List.length [PyInt 1; NpInt64 0; PyInt 1] /\
              Forall2 (fun k v => pmf zero_object (Scalar k) = Ok (VFloat v))
                      [PyInt 1; NpInt64 0; PyInt 1] vs) /\
  (exists vs, cdf zero_object (Sequence [PyInt 1; NpInt64 0; PyInt 1]) = Ok (VArray vs) /\
              List.length vs = List.length [PyInt 1; NpInt64 0; PyInt 1] /\
              Forall2 (fun k v => cdf zero_object (Scalar k) = Ok (VFloat v))
                      [PyInt 1; NpInt64 0; PyInt 1] vs).
Proof.
  split; [exact init_zero |].
  split; [exact valid_outcomes_zero_object |].
  exact (batch_is_elementwise (np_array_1d [0%float]) zero_object
                              [PyInt 1; NpInt64 0; PyInt 1]
                              init_zero valid_outcomes_zero_object).
Defined.

(** ** Rejected outcomes *)

Lemma Qle_bool_false (x y : Q) : Qle_bool x y = false <-> (y < x)%Q.
Proof.
  split; intros H.
  - apply Qnot_le_lt. intros Hle. apply Qle_bool_iff in Hle. congruence.
  - destruct (Qle_bool x y) eqn:E; [| reflexivity].
    apply Qle_bool_iff in E. exfalso. exact (Qlt_not_le _ _ H E).
Qed.

Lemma type_accepted_false (k : pyscalar) :
  type_accepted k = false <-> type_of k <> t_int /\ type_of k <> t_np_int64.
Proof.
  unfold type_accepted. destruct k; simpl; split;
    try discriminate; try (intros [H1 H2]; congruence);
    intros _; split; discriminate.
Qed.

Lemma offending_iff (m : nat) (k : pyscalar) :
  offending m k <-> valid_k m k = false.
Proof.
  unfold offending, valid_k, py_ge0, py_le.
  rewrite <- type_accepted_false, <- !Qle_bool_false.
  destruct (type_accepted k), (Qle_bool (inject_Z 0) (num_value k)),
    (Qle_bool (num_value k) (inject_Z (Z.of_nat m))); simpl; intuition congruence.
Qed.

Lemma offending_not_valid (m : nat) (k : pyscalar) :
  offending m k <-> ~ valid_outcome m k.
Proof.
  rewrite offending_iff, <- valid_k_iff.
  destruct (valid_k m k); split; congruence.
Qed.

Lemma seq_failure_in (m : nat) (k : pyscalar) : In (seq_failure m k) (check_messages m).
Proof.
  unfold seq_failure, check_messages.
  destruct (type_accepted k), (py_ge0 k); simpl; auto.
Qed.

Lemma scalar_failure_in (m : nat) (k : pyscalar) :
  In (scalar_failure m k) (check_messages m).
Proof.
  unfold scalar_failure, check_messages.
  destruct (type_accepted k), (py_ge0 k); simpl; auto 7.
Qed.

(** The check either passes, and every outcome is valid, or raises the
    assertion of its first offending outcome. *)
Lemma check_rv_input_cases (m : nat) (q : query) :
  (check_rv_input m q = Ok true /\ Forall (valid_outcome m) (outcomes q)) \/
  (exists pre k post msg,
      outcomes q = pre ++ k :: post /\
      Forall (valid_outcome m) pre /\ offending m k /\
      In msg (check_messages m) /\
      check_rv_input m q = Raise (AssertionError msg)).
Proof.
  destruct q as [k | ks].
  - rewrite check_scalar_spec. destruct (valid_k m k) eqn:Hv.
    + left. split; [reflexivity |]. constructor; [now apply valid_k_iff | constructor].
    + right. exists [], k, [], (scalar_failure m k).
      repeat split; auto using scalar_failure_in. now apply offending_iff.
  - simpl outcomes. destruct (forallb (valid_k m) ks) eqn:Hv.
    + left. split; [now apply check_sequence_ok | now apply valid_outcomes_forallb].
    + right. destruct (check_sequence_raise m ks Hv) as (pre & k & post & E & Hp & Hk & Hr).
      exists pre, k, post, (seq_failure m k).
      repeat split; auto using seq_failure_in.
      * now apply valid_outcomes_forallb.
      * now apply offending_iff.
Qed.

Lemma queries_raise_with_check (self : PoiBin) (q : query) (e : exn) :
  check_rv_input (n self) q = Raise e ->
  pmf self q = Raise e /\ cdf self q = Raise e /\ pval self q = Raise e.
Proof.
  intros H. unfold pmf, cdf, pval. rewrite H. simpl. auto.
Qed.

Lemma queries_return_when_valid (self : PoiBin) (q : query) :
  well_formed self -> Forall (valid_outcome (n self)) (outcomes q) ->
  (exists v, pmf self q = Ok v) /\ (exists v, cdf self q = Ok v) /\
  (exists v, pval self q = Ok v).
Proof.
  intros Hwf Hv. destruct q as [k | ks]; simpl in Hv.
  - apply Forall_inv, valid_k_iff in Hv.
    rewrite (pmf_scalar_valid self k Hwf Hv), (cdf_scalar_valid self k Hwf Hv),
      (pval_scalar_valid self k Hwf Hv).
    repeat split; eauto. destruct (index_of k =? 0)%nat; eauto.
  - apply valid_outcomes_forallb in Hv.
    rewrite (pmf_sequence_valid self ks Hwf Hv), (cdf_sequence_valid self ks Hwf Hv),
      (pval_sequence_valid self ks Hwf Hv).
    repeat split; eauto.
Qed.

Lemma offending_excludes_valid (m : nat) (ks : list pyscalar) :
  Exists (offending m) ks -> Forall (valid_outcome m) ks -> False.
Proof.
  intros He Hf. apply Exists_exists in He as (k & Hin & Hk).
  rewrite Forall_forall in Hf. apply offending_not_valid in Hk. exact (Hk (Hf k Hin)).
Qed.

Lemma exists_offending_middle (m : nat) (pre post : list pyscalar) (k : pyscalar) :
  offending m k -> Exists (offending m) (pre ++ k :: post).
Proof.
  intros H. apply Exists_app. right. now constructor.
Qed.

(** C7, as the code has it: on a constructed object each of [pmf], [cdf]
    and [pval], for a scalar or a sequence, raises if and only if some
    requested outcome has a runtime type other than Python int and numpy
    int64, or a value below [0] or above [n]; what is raised is an
    [AssertionError] whose message is one of six fixed texts, which name the
    violated condition (and the bound [n] in one of them), not the requested
    value. *)
Theorem query_rejection (arr : ndarray) (self : PoiBin) (q : query) :
  init arr = Ok self ->
  (raises (pmf self q) <-> Exists (offending (n self)) (outcomes q)) /\
  (raises (cdf self q) <-> Exists (offending (n self)) (outcomes q)) /\
  (raises (pval self q) <-> Exists (offending (n self)) (outcomes q)) /\
  (forall e, pmf self q = Raise e \/ cdf self q = Raise e \/ pval self q = Raise e ->
             exists msg, In msg (check_messages (n self)) /\ e = AssertionError msg).
Proof.
  intros Hinit. pose proof (init_well_formed arr self Hinit) as Hwf.
  destruct (check_rv_input_cases (n self) q)
    as [(Hc & Hv) | (pre & k & post & msg & E & Hpre & Hk & Hm & Hr)].
  - destruct (queries_return_when_valid self q Hwf Hv) as ((v1 & H1) & (v2 & H2) & (v3 & H3)).
    rewrite H1, H2, H3.
    repeat split; try (intros (e & He); discriminate);
      try (intros He; exfalso; exact (offending_excludes_valid _ _ He Hv)).
    intros e [He | [He | He]]; discriminate.
  - destruct (queries_raise_with_check self q _ Hr) as (H1 & H2 & H3).
    rewrite H1, H2, H3, E.
    repeat split; try (intros _; apply exists_offending_middle; exact Hk);
      try (intros _; eexists; reflexivity).
    intros e [He | [He | He]]; exists msg; split; auto; congruence.
Qed.

Lemma offending_minus_one : offending (n zero_object) (PyInt (-1)).
Proof. right; left. reflexivity. Qed.

Lemma query_rejection_witness :
  init (np_array_1d [0%float]) = Ok zero_object /\
  (raises (pmf zero_object (Sequence [PyInt 0; PyInt (-1)])) <->
   Exists (offending (n zero_object)) (outcomes (Sequence [PyInt 0; PyInt (-1)]))) /\
  (raises (cdf zero_object (Sequence [PyInt 0; PyInt (-1)])) <->
   Exists (offending (n zero_object)) (outcomes (Sequence [PyInt 0; PyInt (-1)]))) /\
  (raises (pval zero_object (Sequence [PyInt 0; PyInt (-1)])) <->
   Exists (offending (n zero_object)) (outcomes (Sequence [PyInt 0; PyInt (-1)]))) /\
  (forall e, pmf zero_object (Sequence [PyInt 0; PyInt (-1)]) = Raise e \/
             cdf zero_object (Sequence [PyInt 0; PyInt (-1)]) = Raise e \/
             pval zero_object (Sequence [PyInt 0; PyInt (-1)]) = Raise e ->
             exists msg, In msg (check_messages (n zero_object)) /\ e = AssertionError msg).
Proof.
  split; [exact init_zero |].
  exact (query_rejection (np_array_1d [0%float]) zero_object
                         (Sequence [PyInt 0; PyInt (-1)]) init_zero).
Defined.

(** C7 as stated fails twice on [PoiBin([0.0])], where [n = 1]: the numpy
    int32 [1] is an integer inside [[0, n]] and the three queries raise on
    it; and the error raised for [-1] is the error raised for [-2], so it
    does not tell which value was requested. *)
Lemma query_rejection_counterexample :
  init (np_array_1d [0%float]) = Ok zero_object /\
  integer_valued (NpInt32 1) /\
  (inject_Z 0 <= num_value (NpInt32 1))%Q /\
  (num_value (NpInt32 1) <= inject_Z (Z.of_nat (n zero_object)))%Q /\
  pmf zero_object (Scalar (NpInt32 1)) = Raise (AssertionError msg_type) /\
  cdf zero_object (Scalar (NpInt32 1)) = Raise (AssertionError msg_type) /\
  pval zero_object (Scalar (NpInt32 1)) = Raise (AssertionError msg_type) /\
  pmf zero_object (Scalar (PyInt (-1))) = Raise (AssertionError msg_negative_k) /\
  pmf zero_object (Scalar (PyInt (-2))) = Raise (AssertionError msg_negative_k) /\
  pmf zero_object (Sequence [PyInt (-1)]) = Raise (AssertionError msg_seq_negative) /\
  pmf zero_object (Sequence [PyInt (-2)]) = Raise (AssertionError msg_seq_negative).
Proof.
  split; [exact init_zero |].
  split; [exists 1%Z; reflexivity |].
  split; [discriminate |].
  split; [discriminate |].
  repeat split; reflexivity.
Qed.

(** ** The accepted runtime types *)

(** C10: the query-time check passes only on outcomes whose runtime type is
    exactly Python int or numpy int64; an outcome of any other type (numpy
    int32, bool, ...) makes the check and the three queries raise an
    [AssertionError], whatever its value, so also when the value lies in
    [[0, n]]. *)
Theorem accepted_runtime_types (self : PoiBin) (q : query) :
  (check_rv_input (n self) q = Ok true ->
   Forall (fun k => type_of k = t_int \/ type_of k = t_np_int64) (outcomes q)) /\
  (Exists other_type (outcomes q) ->
   exists msg,
     check_rv_input (n self) q = Raise (AssertionError msg) /\
     pmf self q = Raise (AssertionError msg) /\
     cdf self q = Raise (AssertionError msg) /\
     pval self q = Raise (AssertionError msg)).
Proof.
  destruct (check_rv_input_cases (n self) q)
    as [(Hc & Hv) | (pre & k & post & msg & E & Hpre & Hk & Hm & Hr)].
  - split.
    + intros _. eapply Forall_impl; [| exact Hv].
      intros k (z & [-> | ->] & _); simpl; auto.
    + intros He. exfalso. apply (offending_excludes_valid (n self) (outcomes q)); [| exact Hv].
      eapply Exists_impl; [| exact He]. intros k Hk. left. exact Hk.
  - split.
    + intros Hc. congruence.
    + intros _. exists msg. split; [exact Hr |].
      exact (queries_raise_with_check self q _ Hr).
Qed.

Lemma other_type_int32 (z : Z) : other_type (NpInt32 z).
Proof. split; discriminate. Qed.

Lemma other_type_bool (b : bool) : other_type (PyBool b).
Proof. split; discriminate. Qed.

Lemma accepted_runtime_types_witness :
  (inject_Z 0 <= num_value (PyBool true))%Q /\
  (num_value (PyBool true) <= inject_Z (Z.of_nat (n zero_object)))%Q /\
  Exists other_type (outcomes (Sequence [PyInt 0; PyBool true])) /\
  exists msg,
    check_rv_input (n zero_object) (Sequence [PyInt 0; PyBool true]) = Raise (AssertionError msg) /\
    pmf zero_object (Sequence [PyInt 0; PyBool true]) = Raise (AssertionError msg) /\
    cdf zero_object (Sequence [PyInt 0; PyBool true]) = Raise (AssertionError msg) /\
    pval zero_object (Sequence [PyInt 0; PyBool true]) = Raise (AssertionError msg).
Proof.
  split; [discriminate |].
  split; [discriminate |].
  assert (H : Exists other_type (outcomes (Sequence [PyInt 0; PyBool true])))
    by (right; left; apply other_type_bool).
  split; [exact H |].
  exact (proj2 (accepted_runtime_types zero_object (Sequence [PyInt 0; PyBool true])) H).
Defined.

(** ** The empty probability vector *)

(** C9: for the empty input the shape and range checks pass, construction
    succeeds with [n = 0], the pmf vector is [[1]] and the cdf vector is
    [[1]], and [pmf(0) = 1], [cdf(0) = 1], [pval(0) = 1] (the integer). *)
Theorem empty_input_distribution :
  check_input_prob (np_array_1d []) (size (np_array_1d [])) = Ok tt /\
  exists self,
    init (np_array_1d []) = Ok self /\
    n self = 0%nat /\
    pmf_list self = [1%R] /\
    cdf_list self = [1%R] /\
    pmf self (Scalar (PyInt 0)) = Ok (VFloat 1) /\
    cdf self (Scalar (PyInt 0)) = Ok (VFloat 1) /\
    pval self (Scalar (PyInt 0)) = Ok (VInt 1).
Proof.
  split; [reflexivity |].
  exists empty_object. split; [exact init_empty |].
  repeat split; reflexivity.
Qed.

(** ** Validation of the probabilities *)

Lemma shape_one_dimensional (arr : ndarray) :
  shape arr = [size arr] <-> List.length (shape arr) = 1%nat.
Proof.
  unfold size. destruct (shape arr) as [| a [| b s]]; simpl; split; intros H;
    try discriminate; try reflexivity.
  - f_equal. lia.
Qed.

Lemma forallb_false_Exists {A : Type} (f : A -> bool) (l : list A) :
  forallb f l = false <-> Exists (fun x => f x = false) l.
Proof.
  induction l as [| a l IH]; simpl.
  - split; [discriminate | intros H; inversion H].
  - destruct (f a) eqn:E; simpl.
    + rewrite IH. split; intros H; [now right | inversion H; subst; [congruence | assumption]].
    + split; [intros _; now left | reflexivity].
Qed.

Lemma forallb_true_Forall {A : Type} (f : A -> bool) (l : list A) :
  forallb f l = true <-> Forall (fun x => f x = true) l.
Proof. rewrite forallb_forall, Forall_forall. reflexivity. Qed.

(** An element passes [p >= 0] and [p <= 1] only if it is a finite
    number: NaN fails both, the infinities fail one each. *)
Lemma validated_finite (x : float) :
  PrimFloat.leb 0%float x = true -> PrimFloat.leb x 1%float = true ->
  is_finite_float x = true.
Proof.
  rewrite !leb_spec. unfold is_finite_float.
  replace (Prim2SF 0%float) with (S754_zero false) by (vm_compute; reflexivity).
  replace (Prim2SF 1%float) with (S754_finite false 4503599627370496 (-52))
    by (vm_compute; reflexivity).
  destruct (Prim2SF x) as [s | [|] | | s m e]; try reflexivity;
    unfold SFleb, SFcompare; intros H0 H1; discriminate.
Qed.

(** The three ways [check_input_prob] fails, in the order it tests them. *)
Lemma check_input_prob_cases (arr : ndarray) :
  (List.length (shape arr) <> 1%nat /\
   check_input_prob arr (size arr) = Raise (ValueError msg_shape)) \/
  (List.length (shape arr) = 1%nat /\
   Exists (fun x => PrimFloat.leb 0%float x = false) (data arr) /\
   check_input_prob arr (size arr) = Raise (ValueError msg_negative)) \/
  (List.length (shape arr) = 1%nat /\
   Forall (fun x => PrimFloat.leb 0%float x = true) (data arr) /\
   Exists (fun x => PrimFloat.leb x 1%float = false) (data arr) /\
   check_input_prob arr (size arr) = Raise (ValueError msg_above_one)) \/
  (List.length (shape arr) = 1%nat /\
   Forall (fun x => PrimFloat.leb 0%float x = true) (data arr) /\
   Forall (fun x => PrimFloat.leb x 1%float = true) (data arr) /\
   check_input_prob arr (size arr) = Ok tt).
Proof.
  unfold check_input_prob, shape_eqb.
  destruct (list_eq_dec Nat.eq_dec (shape arr) [size arr]) as [E | E]; simpl.
  - apply shape_one_dimensional in E. right.
    unfold np_all_ge0, np_all_le1.
    destruct (forallb (fun x => PrimFloat.leb 0%float x) (data arr)) eqn:H0; simpl.
    + apply forallb_true_Forall in H0. right.
      destruct (forallb (fun x => PrimFloat.leb x 1%float) (data arr)) eqn:H1; simpl.
      * apply forallb_true_Forall in H1. right. auto.
      * apply forallb_false_Exists in H1. left. auto.
    + apply forallb_false_Exists in H0. left. auto.
  - left. split; [| reflexivity]. intros H. apply E, shape_one_dimensional, H.
Qed.

Lemma init_check_raise (arr : ndarray) (e : exn) :
  check_input_prob arr (size arr) = Raise e -> init arr = Raise e.
Proof. intros H. unfold init. rewrite H. reflexivity. Qed.

Lemma init_after_check (arr : ndarray) :
  check_input_prob arr (size arr) = Ok tt ->
  init arr =
  (pmf_list <- get_pmf_xi (map float_to_R (data arr)) (size arr)
                          (2 * PI / INR (size arr + 1))%R ;;
   cdf_list <- get_cdf (size arr) pmf_list ;;
   Ok (mk_PoiBin arr (size arr) (2 * PI / INR (size arr + 1))%R pmf_list cdf_list)).
Proof. intros H. unfold init. rewrite H. reflexivity. Qed.

(** After a successful check the constructor can only fail in the reality
    check of [get_pmf_xi]. *)
Lemma init_raise_after_check (arr : ndarray) (e : exn) :
  check_input_prob arr (size arr) = Ok tt -> init arr = Raise e ->
  e = TypeError msg_not_real.
Proof.
  intros Hc H. rewrite (init_after_check arr Hc) in H.
  apply bind_raise_inv in H as [H | (xi & Hxi & H)].
  - exact (get_pmf_xi_raise _ _ _ _ H).
  - apply bind_raise_inv in H as [H | (c & _ & H)]; [| discriminate].
    exfalso. exact (get_cdf_no_raise _ _ e (get_pmf_xi_length _ _ _ _ Hxi) H).
Qed.

(** C6, as the code has it: construction raises a [ValueError] if and
    only if the array is not one-dimensional, or some element fails the
    comparison [x >= 0], or some element fails [x <= 1] (a NaN fails both);
    the message names the first of these conditions that holds, in that
    order.  A failed construction returns no object.  A successful one
    returns an object whose pmf and cdf vectors have [n + 1] entries each,
    computed from a spectrum of [n + 1] entries that [get_pmf_xi] builds and
    does not keep; all its probabilities are finite numbers. *)
Theorem construction_validation (arr : ndarray) :
  (List.length (shape arr) <> 1%nat -> init arr = Raise (ValueError msg_shape)) /\
  (List.length (shape arr) = 1%nat ->
   Exists (fun x => PrimFloat.leb 0%float x = false) (data arr) ->
   init arr = Raise (ValueError msg_negative)) /\
  (List.length (shape arr) = 1%nat ->
   Forall (fun x => PrimFloat.leb 0%float x = true) (data arr) ->
   Exists (fun x => PrimFloat.leb x 1%float = false) (data arr) ->
   init arr = Raise (ValueError msg_above_one)) /\
  ((exists msg, init arr = Raise (ValueError msg)) <->
   (List.length (shape arr) <> 1%nat \/
    Exists (fun x => PrimFloat.leb 0%float x = false) (data arr) \/
    Exists (fun x => PrimFloat.leb x 1%float = false) (data arr))) /\
  (forall e self, init arr = Raise e -> init arr = Ok self -> False) /\
  (forall self, init arr = Ok self ->
     p self = arr /\ n self = size arr /\
     Forall (fun x => is_finite_float x = true) (data arr) /\
     (exists chi, chi_normalised (map float_to_R (data arr)) (n self) (omega self) = Ok chi /\
                  List.length chi = (n self + 1)%nat) /\
     List.length (pmf_list self) = (n self + 1)%nat /\
     List.length (cdf_list self) = (n self + 1)%nat).
Proof.
  pose proof (check_input_prob_cases arr) as Hcases.
  assert (Hno : forall x : float, PrimFloat.leb 0%float x = true ->
                                  PrimFloat.leb 0%float x = false -> False)
    by (intros x H1 H2; congruence).
  split; [| split; [| split; [| split; [| split]]]].
  - intros Hs. destruct Hcases as [(_ & H) | [(H & _) | [(H & _) | (H & _)]]];
      [now apply init_check_raise | contradiction ..].
  - intros Hs He.
    destruct Hcases as [(H & _) | [(_ & _ & H) | [(_ & Hf & _) | (_ & Hf & _)]]];
      [contradiction | now apply init_check_raise | exfalso .. ];
      apply Exists_exists in He as (x & Hin & Hx);
      rewrite Forall_forall in Hf; exact (Hno x (Hf x Hin) Hx).
  - intros Hs Hf0 He.
    destruct Hcases as [(H & _) | [(_ & He0 & _) | [(_ & _ & _ & H) | (_ & _ & Hf & _)]]].
    + contradiction.
    + exfalso. apply Exists_exists in He0 as (x & Hin & Hx).
      rewrite Forall_forall in Hf0. exact (Hno x (Hf0 x Hin) Hx).
    + now apply init_check_raise.
    + exfalso. apply Exists_exists in He as (x & Hin & Hx).
      rewrite Forall_forall in Hf. specialize (Hf x Hin). congruence.
  - split.
    + intros (msg & Hr).
      destruct Hcases as [(H & _) | [(_ & H & _) | [(_ & _ & H & _) | (_ & _ & _ & H)]]]; auto.
      pose proof (init_raise_after_check arr _ H Hr). discriminate.
    + intros Hd.
      destruct Hcases as [(_ & H) | [(_ & _ & H) | [(_ & _ & _ & H) | (Hs & Hf0 & Hf1 & H)]]];
        try (eexists; apply init_check_raise; exact H).
      exfalso. destruct Hd as [Hd | [Hd | Hd]].
      * contradiction.
      * apply Exists_exists in Hd as (x & Hin & Hx).
        rewrite Forall_forall in Hf0. exact (Hno x (Hf0 x Hin) Hx).
      * apply Exists_exists in Hd as (x & Hin & Hx).
        rewrite Forall_forall in Hf1. specialize (Hf1 x Hin). congruence.
  - intros e self H1 H2. congruence.
  - intros self Hinit.
    destruct (init_inv arr self Hinit) as (Hp & Hn & Hw & Hc & Hpm & Hcd).
    pose proof (init_well_formed arr self Hinit) as Hwf.
    apply check_input_prob_ok in Hc as (_ & H0 & H1).
    apply forallb_true_Forall in H0, H1.
    rewrite Forall_forall in H0, H1.
    split; [exact Hp |]. split; [exact Hn |]. split; [| split; [| split]].
    + apply Forall_forall. intros x Hin. apply validated_finite; auto.
    + unfold get_pmf_xi in Hpm. rewrite Hn.
      apply bind_ok_inv in Hpm as (chi & Hchi & _).
      exists chi. split; [exact Hchi |].
      exact (chi_normalised_length _ _ _ _ Hchi).
    + apply Hwf.
    + exact (well_formed_cdf_length self Hwf).
Qed.

Lemma construction_validation_witness :
  init (np_array_1d [0%float]) = Ok zero_object /\
  p zero_object = np_array_1d [0%float] /\
  n zero_object = size (np_array_1d [0%float]) /\
  Forall (fun x => is_finite_float x = true) (data (np_array_1d [0%float])) /\
  (exists chi,
      chi_normalised (map float_to_R (data (np_array_1d [0%float])))
                     (n zero_object) (omega zero_object) = Ok chi /\
      List.length chi = (n zero_object + 1)%nat) /\
  List.length (pmf_list zero_object) = (n zero_object + 1)%nat /\
  List.length (cdf_list zero_object) = (n zero_object + 1)%nat.
Proof.
  split; [exact init_zero |].
  exact (proj2 (proj2 (proj2 (proj2 (proj2
           (construction_validation (np_array_1d [0%float]))))))
         zero_object init_zero).
Defined.

(** C6 as stated fails on [PoiBin([nan])]: the input is a flat list of one
    scalar, that scalar is neither below [0] nor above [1], and construction
    raises the [ValueError] of the negativity test. *)
Lemma construction_validation_counterexample :
  shape (np_array_1d [nan]) = [1%nat] /\
  PrimFloat.ltb nan 0%float = false /\
  PrimFloat.ltb 1%float nan = false /\
  init (np_array_1d [nan]) = Raise (ValueError msg_negative).
Proof.
  split; [reflexivity |].
  split; [vm_compute; reflexivity |].
  split; [vm_compute; reflexivity |].
  apply init_check_raise. vm_compute. reflexivity.
Qed.

(** ** The reality check *)

Lemma eps_lt_1 : (eps < 1)%R.
Proof.
  unfold eps, float_to_R.
  replace (Prim2SF 0x1.203af9ee75616p-50%float)
    with (S754_finite false 5070602400912918 (-102))
    by (vm_compute; reflexivity).
  unfold SF2R.
  assert (Hp : (0 < powerRZ 2 102)%R) by (apply powerRZ_lt; lra).
  replace (powerRZ 2 (-102)) with (/ powerRZ 2 102)%R
    by (symmetry; apply (powerRZ_neg' 2 102)).
  apply (Rmult_lt_reg_r (powerRZ 2 102)); [exact Hp |].
  rewrite Rmult_assoc, Rinv_l, Rmult_1_r, Rmult_1_l by lra.
  change (powerRZ 2 102) with (pow (IZR 2) (Pos.to_nat 102)).
  rewrite pow_IZR. apply IZR_lt. vm_compute. reflexivity.
Qed.

Lemma check_xi_are_real_spec (xx : list complex) :
  check_xi_are_real xx = true <-> Forall (fun z => (imag z <= eps)%R) xx.
Proof.
  unfold check_xi_are_real. rewrite forallb_true_Forall.
  split; intros H; eapply Forall_impl; try exact H; intros z Hz.
  - unfold Rle_bool in Hz. destruct (Rle_dec (imag z) eps); [assumption | discriminate].
  - now apply Rle_bool_true.
Qed.

(** C2 on the code: [check_xi_are_real] tests [imag <= eps] and no more,
    so [get_pmf_xi] raises its [TypeError] exactly when some imaginary part
    is above [eps]; the array [[-1j]], whose imaginary part has magnitude [1],
    passes the check. *)
Theorem reality_check_is_one_sided :
  (forall xx, check_xi_are_real xx = true <-> Forall (fun z => (imag z <= eps)%R) xx) /\
  (forall p n w,
      get_pmf_xi p n w = Raise (TypeError msg_not_real) <->
      exists chi, chi_normalised p n w = Ok chi /\
                  Exists (fun z => (eps < imag z)%R) (fft chi)) /\
  check_xi_are_real [Cx 0 (-1)] = true /\
  (eps < Rabs (imag (Cx 0 (-1))))%R.
Proof.
  split; [exact check_xi_are_real_spec |].
  split; [| split].
  - intros p n w. unfold get_pmf_xi.
    destruct (chi_normalised_eq p n w) as (c & _ & ->). cbn [bind].
    set (chi := map _ c).
    destruct (check_xi_are_real (fft chi)) eqn:E.
    + split; [discriminate |]. intros (chi' & Hc & He). injection Hc as <-.
      apply check_xi_are_real_spec in E. apply Exists_exists in He as (z & Hin & Hz).
      rewrite Forall_forall in E. specialize (E z Hin). lra.
    + split; [| reflexivity]. intros _. exists chi. split; [reflexivity |].
      unfold check_xi_are_real in E. apply forallb_false_Exists in E.
      eapply Exists_impl; [| exact E]. intros z Hz. cbv beta in Hz.
      unfold Rle_bool in Hz. destruct (Rle_dec (imag z) eps); [discriminate | lra].
  - apply check_xi_are_real_spec. constructor; [| constructor].
    simpl. pose proof eps_pos. lra.
  - simpl. unfold Rabs. pose proof eps_lt_1. destruct (Rcase_abs (-1)); lra.
Qed.

(** ** Conjugate symmetry of the spectrum *)






(** *** The middle entry *)












(** * The computed vector is the distribution *)

(** ** Algebra of the complex numbers *)

Lemma complex_ring : ring_theory C0 C1 Cadd Cmul Csub Copp (@eq complex).
Proof.
  constructor; intros; try reflexivity;
    repeat match goal with z : complex |- _ =>
      let a := fresh "a" in let b := fresh "b" in destruct z as [a b] end;
    unfold C0, C1, Cadd, Cmul, Csub, Copp; cbn [real imag]; apply Cx_eq; ring.
Qed.

Add Ring complex_ring_instance : complex_ring.







(** ** The polar form *)





(** ** The log-magnitude and phase sums recombine into the product *)





(** ** The distribution as the coefficients of a polynomial *)











(** ** Finite sums of complex numbers *)

Lemma Csum_nil : Csum [] = C0.
Proof. reflexivity. Qed.

Lemma Csum_cons (z : complex) (l : list complex) : Csum (z :: l) = Cadd z (Csum l).
Proof. reflexivity. Qed.




Lemma Csum_map_scale_r {A : Type} (c : complex) (f : A -> complex) (l : list A) :
  Csum (map (fun x => Cmul (f x) c) l) = Cmul (Csum (map f l)) c.
Proof.
  induction l as [| x l IH]; cbn [map]; rewrite ?Csum_cons, ?Csum_nil, ?IH; ring.
Qed.





(** ** Powers of a point of the unit circle *)





(** ** Orthogonality of the points of the unit circle *)






(** ** The spectrum is the polynomial at the points of the unit circle *)









(** ** The transform of the normalised spectrum *)






(** ** Validated probabilities are real numbers of the unit interval *)

Lemma digits2_pos_bound (m : positive) : (Z.pos m < 2 ^ Z.pos (digits2_pos m))%Z.
Proof.
  induction m as [m IH | m IH |]; cbn [digits2_pos].
  - rewrite Pos2Z.inj_succ, Z.pow_succ_r by lia. lia.
  - rewrite Pos2Z.inj_succ, Z.pow_succ_r by lia. lia.
  - reflexivity.
Qed.

Lemma powerRZ_2_le (e1 e2 : Z) : (e1 <= e2)%Z -> (powerRZ 2 e1 <= powerRZ 2 e2)%R.
Proof.
  intros H. replace e2 with (e1 + (e2 - e1))%Z by lia.
  rewrite powerRZ_add by lra.
  assert (H1 : (0 < powerRZ 2 e1)%R) by (apply powerRZ_lt; lra).
  assert (H2 : (1 <= powerRZ 2 (e2 - e1))%R).
  { destruct (e2 - e1)%Z as [| q | q] eqn:E; try lia.
    - simpl. lra.
    - simpl. apply pow_R1_Rle. lra. }
  nra.
Qed.

Lemma two_pow_52 : (4503599627370496 * powerRZ 2 (-52) = 1)%R.
Proof.
  change (powerRZ 2 (-52)) with (/ (IZR 2 ^ 52))%R. rewrite pow_IZR.
  replace (2 ^ Z.of_nat 52)%Z with 4503599627370496%Z by (vm_compute; reflexivity).
  apply Rinv_r. apply not_0_IZR. discriminate.
Qed.

Lemma two_pow_53 : (9007199254740992 * powerRZ 2 (-53) = 1)%R.
Proof.
  change (powerRZ 2 (-53)) with (/ (IZR 2 ^ 53))%R. rewrite pow_IZR.
  replace (2 ^ Z.of_nat 53)%Z with 9007199254740992%Z by (vm_compute; reflexivity).
  apply Rinv_r. apply not_0_IZR. discriminate.
Qed.

(** A canonical binary64 mantissa has at most 53 digits. *)
Lemma mantissa_bound (m : positive) (e : Z) :
  canonical_mantissa prec emax m e = true -> (Z.pos m < 9007199254740992)%Z.
Proof.
  unfold canonical_mantissa, fexp, emin, prec, emax. intros H.
  apply Z.eqb_eq in H.
  assert (Hdig : (Z.pos (digits2_pos m) <= 53)%Z) by lia.
  eapply Z.lt_le_trans; [apply digits2_pos_bound |].
  change 9007199254740992%Z with (2 ^ 53)%Z.
  apply Z.pow_le_mono_r; [reflexivity | exact Hdig].
Qed.

Lemma scaled_at_52 (m : positive) :
  (Z.pos m <= 4503599627370496)%Z -> (IZR (Z.pos m) * powerRZ 2 (-52) <= 1)%R.
Proof.
  intros H. apply IZR_le in H. rewrite <- two_pow_52.
  apply Rmult_le_compat_r; [apply powerRZ_le, Rlt_0_2 | exact H].
Qed.

Lemma scaled_below_52 (m : positive) (e : Z) :
  (Z.pos m < 9007199254740992)%Z -> (e < -52)%Z ->
  (IZR (Z.pos m) * powerRZ 2 e <= 1)%R.
Proof.
  intros Hm He. apply IZR_lt in Hm.
  assert (Hpe : (powerRZ 2 e <= powerRZ 2 (-53))%R) by (apply powerRZ_2_le; lia).
  assert (Hp53 : (0 < powerRZ 2 (-53))%R) by (apply powerRZ_lt, Rlt_0_2).
  assert (H0 : (0 <= IZR (Z.pos m))%R) by (apply IZR_le; lia).
  apply Rle_trans with (IZR (Z.pos m) * powerRZ 2 (-53))%R.
  - apply Rmult_le_compat_l; assumption.
  - rewrite <- two_pow_53. apply Rmult_le_compat_r; [apply Rlt_le, Hp53 | apply Rlt_le, Hm].
Qed.

(** The comparisons of [check_input_prob], read on the decoded value. *)
Lemma compare_cont_le (m k : positive) :
  Pos.compare_cont Eq m k <> Gt -> (Z.pos m <= Z.pos k)%Z.
Proof. intros H. exact H. Qed.

Lemma not_gt_of_match (c : comparison) :
  match c with Gt => false | _ => true end = true -> c <> Gt.
Proof. destruct c; intros H; [discriminate | discriminate | discriminate H]. Qed.

Lemma leb_zero_finite (s : bool) (m : positive) (e : Z) :
  SFleb (S754_zero false) (S754_finite s m e) = true -> s = false.
Proof. destruct s; [discriminate | reflexivity]. Qed.

Lemma leb_finite_one (m : positive) (e : Z) :
  SFleb (S754_finite false m e) (S754_finite false 4503599627370496 (-52)) = true ->
  (e = (-52)%Z /\ (Z.pos m <= 4503599627370496)%Z) \/ (e < -52)%Z.
Proof.
  unfold SFleb, SFcompare.
  destruct (Z.compare_spec e (-52)) as [He | He | He]; intros H.
  - left. split; [exact He |].
    apply compare_cont_le, not_gt_of_match. exact H.
  - right. exact He.
  - discriminate.
Qed.

Lemma validated_in_unit_interval (x : float) :
  PrimFloat.leb 0%float x = true -> PrimFloat.leb x 1%float = true ->
  (0 <= float_to_R x <= 1)%R.
Proof.
  rewrite !leb_spec. unfold float_to_R.
  pose proof (Prim2SF_valid x) as Hvalid.
  replace (Prim2SF 0%float) with (S754_zero false) by (vm_compute; reflexivity).
  replace (Prim2SF 1%float) with (S754_finite false 4503599627370496 (-52))
    by (vm_compute; reflexivity).
  destruct (Prim2SF x) as [s | [|] | | s m e]; cbn [SF2R]; intros H0 H1;
    try discriminate; try (split; [apply Rle_refl | apply Rle_0_1]).
  apply leb_zero_finite in H0. subst s.
  assert (Hm : (0 <= IZR (Z.pos m))%R) by (apply IZR_le; discriminate).
  assert (Hp : (0 <= powerRZ 2 e)%R) by (apply powerRZ_le, Rlt_0_2).
  split; [now apply Rmult_le_pos |].
  apply andb_prop in Hvalid as [Hcanon _].
  destruct (leb_finite_one m e H1) as [(-> & Hle) | Hlt].
  - now apply scaled_at_52.
  - apply scaled_below_52; [| exact Hlt]. exact (mantissa_bound m e Hcanon).
Qed.

(** ** The vector the constructor stores *)






(** ** The self-mirrored entry at the frequency binary64 gives *)









(** * Further properties of the code *)

(** ** Sums of prefixes *)

Lemma Rsum_app (a b : list R) : Rsum (a ++ b) = (Rsum a + Rsum b)%R.
Proof.
  unfold Rsum. induction a as [| x a IH]; cbn [app fold_right].
  - ring.
  - rewrite IH. ring.
Qed.

Lemma firstn_succ_nth (xx : list R) (k : nat) :
  (k < List.length xx)%nat -> firstn (S k) xx = firstn k xx ++ [nth k xx 0%R].
Proof.
  revert k. induction xx as [| x xx IH]; intros k Hk; simpl in Hk; [lia |].
  destruct k as [| k]; [reflexivity |].
  cbn [firstn nth app]. f_equal. apply IH. lia.
Qed.

Lemma Rsum_firstn_succ (xx : list R) (k : nat) :
  (k < List.length xx)%nat ->
  Rsum (firstn (S k) xx) = (Rsum (firstn k xx) + nth k xx 0)%R.
Proof.
  intros Hk. rewrite firstn_succ_nth by exact Hk. rewrite Rsum_app.
  unfold Rsum. cbn [fold_right]. ring.
Qed.

(** The loop of [get_cdf], for an input with at least [n + 1] entries. *)
Lemma get_cdf_loop (n : nat) (xx : list R) :
  (n < List.length xx)%nat ->
  exists c, get_cdf n xx = Ok c /\ is_prefix_sum n xx c.
Proof.
  intros HL. unfold get_cdf, np_empty_real, arange.
  rewrite (getitem_nth xx _ 0%R) by lia. cbn [bind].
  rewrite setitem_ok by (rewrite repeat_length; lia). cbn [bind].
  replace (n + 1 - 1)%nat with n by lia.
  set (c0 := firstn 0 (repeat 0%R (n + 1)) ++ nth 0 xx 0%R :: skipn 1 (repeat 0%R (n + 1))).
  set (Inv := fun (i : nat) (c : list R) =>
                List.length c = (n + 1)%nat /\
                nth 0 c 0%R = nth 0 xx 0%R /\
                forall k, (1 <= k < i)%nat ->
                          nth k c 0%R = (nth (k - 1) c 0 + nth k xx 0)%R).
  destruct (@for_each_seq_inv _ (get_cdf_step xx) Inv n 1%nat c0) as (c & Hc & Hlen & H0 & Hs).
  - unfold Inv, c0. split; [| split].
    + rewrite update_length; rewrite repeat_length; lia.
    + reflexivity.
    + intros k Hk; lia.
  - intros i t Hi (Hlen & H0 & Hs). unfold get_cdf_step.
    rewrite (getitem_nth t _ 0%R) by lia. cbn [bind].
    rewrite (getitem_nth xx _ 0%R) by lia. cbn [bind].
    rewrite setitem_ok by lia.
    eexists; split; [reflexivity |]. unfold Inv. split; [| split].
    + rewrite update_length; lia.
    + rewrite update_nth_other by lia. exact H0.
    + intros k Hk. destruct (Nat.eq_dec k i) as [-> | Hne].
      * rewrite update_nth_same by lia.
        rewrite update_nth_other by lia. reflexivity.
      * rewrite !update_nth_other by lia. apply Hs; lia.
  - exists c. split; [exact Hc |]. split; [exact Hlen | split; [exact H0 |]].
    intros i Hi. apply Hs; lia.
Qed.

Lemma prefix_sum_closed_form (n : nat) (xx c : list R) (k : nat) :
  (n < List.length xx)%nat -> is_prefix_sum n xx c -> (k <= n)%nat ->
  nth k c 0%R = Rsum (firstn (k + 1) xx).
Proof.
  intros HL (_ & H0 & Hs). induction k as [| k IH]; intros Hk.
  - rewrite H0. replace (0 + 1)%nat with 1%nat by lia.
    rewrite (Rsum_firstn_succ xx 0) by lia. unfold Rsum. cbn [firstn fold_right]. ring.
  - rewrite (Hs (S k)) by lia. replace (S k - 1)%nat with k by lia.
    rewrite IH by lia. replace (S k + 1)%nat with (S (k + 1)) by lia.
    rewrite (Rsum_firstn_succ xx (k + 1)) by lia.
    replace (k + 1)%nat with (S k) by lia. reflexivity.
Qed.

(** The loop of [get_cdf] stops with an [IndexError] at the first index
    the input does not have. *)
Lemma get_cdf_short (n : nat) (xx : list R) :
  (List.length xx <= n)%nat -> get_cdf n xx = Raise (IndexError msg_index).
Proof.
  intros HL. unfold get_cdf, np_empty_real, arange.
  destruct xx as [| x0 xx']; [reflexivity |].
  set (xx := x0 :: xx') in *. set (m := List.length xx) in *.
  assert (Hm : (1 <= m)%nat) by (unfold m, xx; simpl; lia).
  rewrite (getitem_nth xx _ 0%R) by lia. cbn [bind].
  rewrite setitem_ok by (rewrite repeat_length; lia). cbn [bind].
  replace (n + 1 - 1)%nat with ((m - 1) + S (n - m))%nat by lia.
  rewrite seq_app, for_each_app.
  set (c0 := firstn 0 (repeat 0%R (n + 1)) ++ nth 0 xx 0%R :: skipn 1 (repeat 0%R (n + 1))).
  destruct (@for_each_seq_inv _ (get_cdf_step xx)
              (fun _ c => List.length c = (n + 1)%nat) (m - 1) 1%nat c0)
    as (c & Hc & Hlen).
  - unfold c0. rewrite update_length; rewrite repeat_length; lia.
  - intros i t Hi Hlen. unfold get_cdf_step.
    rewrite (getitem_nth t _ 0%R) by lia. cbn [bind].
    rewrite (getitem_nth xx _ 0%R) by (fold m; lia). cbn [bind].
    rewrite setitem_ok by lia.
    eexists; split; [reflexivity |]. rewrite update_length; lia.
  - rewrite Hc. cbn [bind seq for_each]. unfold get_cdf_step at 1.
    rewrite (getitem_nth c _ 0%R) by lia. cbn [bind].
    unfold getitem at 1.
    replace (nth_error xx (1 + (m - 1))) with (@None R); [reflexivity |].
    symmetry. apply nth_error_None. fold m. lia.
Qed.

(** X1: [get_cdf] on an input [xx] and the bound [n].  When [xx] has at
    most [n] entries the call raises an [IndexError]; when it has more, the
    call returns an array of [n + 1] entries whose entry [k] is the sum of
    the first [k + 1] entries of [xx], the entries of [xx] past [n] being
    ignored. *)
Theorem get_cdf_running_sums (n : nat) (xx : list R) :
  ((List.length xx <= n)%nat -> get_cdf n xx = Raise (IndexError msg_index)) /\
  ((n < List.length xx)%nat ->
   exists c, get_cdf n xx = Ok c /\
             List.length c = (n + 1)%nat /\
             forall k, (k <= n)%nat -> nth k c 0%R = Rsum (firstn (k + 1) xx)).
Proof.
  split.
  - apply get_cdf_short.
  - intros HL. destruct (get_cdf_loop n xx HL) as (c & Hc & Hp).
    exists c. split; [exact Hc |]. split; [apply Hp |].
    intros k Hk. exact (prefix_sum_closed_form n xx c k HL Hp Hk).
Qed.

Lemma get_cdf_running_sums_witness :
  get_cdf 2 [1%R; 2%R] = Raise (IndexError msg_index) /\
  exists c, get_cdf 1 [1%R; 2%R; 5%R] = Ok c /\
            List.length c = (1 + 1)%nat /\
            forall k, (k <= 1)%nat -> nth k c 0%R = Rsum (firstn (k + 1) [1%R; 2%R; 5%R]).
Proof.
  split.
  - apply (proj1 (get_cdf_running_sums 2 [1%R; 2%R])). simpl. lia.
  - apply (proj2 (get_cdf_running_sums 1 [1%R; 2%R; 5%R])). simpl. lia.
Defined.

(** ** Entries of the coefficient vector *)






(** ** Construction from a flat list *)



(** ** One more trial *)



(** ** The order of the probabilities *)




(** ** Sums of the head and of the tail of a vector *)






(** ** The stored vectors of an object built from a flat list *)





(** ** The upper tail *)




(** ** Expectations under the stored pmf *)













(** ** The spectrum as a characteristic function *)


(** X8: the index arithmetic of the spectrum builder.  [half_n], computed
    as [int(n / 2 + n % 2)] with a true division, is [n / 2] rounded up; the
    two slice assignments therefore fit ([half_n] entries, then [n - half_n]
    entries read from the first half), and for every [n], every list of
    probabilities and every [omega] the builder raises nothing and leaves
    an array of [n + 1] entries whose entry [0] is [1]. *)
Theorem builder_index_arithmetic (p : list R) (n : nat) (w : R) :
  (2 * half_n n = n + n mod 2)%nat /\
  (n - half_n n <= half_n n <= n)%nat /\
  exists chi,
    chi_mirrored p n w = Ok chi /\
    List.length chi = (n + 1)%nat /\
    nth 0 chi (Cx 0 0) = Cof_real 1.
Proof.
  split; [| split].
  - rewrite half_n_spec.
    pose proof (Nat.div_mod_eq (n + 1) 2) as H1.
    pose proof (Nat.mod_upper_bound (n + 1) 2 ltac:(lia)) as H2.
    pose proof (Nat.div_mod_eq n 2) as H3.
    pose proof (Nat.mod_upper_bound n 2 ltac:(lia)) as H4.
    lia.
  - split; [apply half_n_mirror | apply half_n_le].
  - pose proof (chi_mirrored_eq p n w) as E.
    eexists. split; [exact E |]. split; [| reflexivity].
    exact (chi_mirrored_length p n w _ E).
Qed.




(** ** The outcomes of a construction *)

(** X10: what a construction can do.  It has three outcomes and no
    other: it returns an object, after [check_input_prob] has passed; or it
    raises the [ValueError] that [check_input_prob] raises; or, after
    [check_input_prob] has passed, it raises the [TypeError] of the reality
    check in [get_pmf_xi], and then the transform of the normalised
    spectrum has an entry whose imaginary part exceeds [1e-15].  The spectrum
    builder and [get_cdf] never raise during a construction. *)
Theorem construction_outcomes (arr : ndarray) :
  (exists self, init arr = Ok self /\ check_input_prob arr (size arr) = Ok tt) \/
  (exists msg, check_input_prob arr (size arr) = Raise (ValueError msg) /\
               init arr = Raise (ValueError msg)) \/
  (check_input_prob arr (size arr) = Ok tt /\
   init arr = Raise (TypeError msg_not_real) /\
   exists chi,
     chi_normalised (map float_to_R (data arr)) (size arr)
                    (2 * PI / INR (size arr + 1))%R = Ok chi /\
     Exists (fun z => (eps < imag z)%R) (fft chi)).
Proof.
  destruct (check_input_prob_cases arr)
    as [(_ & H) | [(_ & _ & H) | [(_ & _ & _ & H) | (_ & _ & _ & H)]]];
    try (right; left; eexists; split; [exact H | exact (init_check_raise arr _ H)]).
  rewrite (init_after_check arr H).
  set (ps := map float_to_R (data arr)). set (w := (2 * PI / INR (size arr + 1))%R).
  destruct (chi_normalised_eq ps (size arr) w) as (chi0 & Hchi0 & Hnorm).
  pose proof (chi_normalised_length ps (size arr) w _ Hnorm) as Hlen.
  unfold get_pmf_xi. rewrite Hnorm. cbn [bind].
  destruct (check_xi_are_real (fft (map _ chi0))) eqn:Hreal.
  - left. cbn [bind].
    destruct (get_cdf_spec (size arr) (map real (fft (map (fun z => Cdiv z (Cof_real (INR (size arr + 1)))) chi0))))
      as (c & Hc & _).
    { rewrite length_map, fft_length. exact Hlen. }
    rewrite Hc. cbn [bind]. eexists. split; [reflexivity | exact H].
  - right; right. split; [exact H |]. split; [reflexivity |].
    eexists. split; [reflexivity |].
    unfold check_xi_are_real in Hreal. apply forallb_false_Exists in Hreal.
    apply Exists_exists in Hreal as (z & Hin & Hz). apply Exists_exists.
    exists z. split; [exact Hin |].
    unfold Rle_bool in Hz. destruct (Rle_dec (imag z) eps); [discriminate | lra].
Qed.

(** ** The order of the assertions *)

Lemma check_sequence_prefix (m : nat) (pre rest : list pyscalar) :
  Forall (valid_outcome m) pre ->
  check_rv_input m (Sequence (pre ++ rest)) = check_rv_input m (Sequence rest).
Proof.
  induction 1 as [| k pre Hk _ IH]; [reflexivity |].
  cbn [app]. rewrite check_sequence_cons.
  now rewrite (proj2 (valid_k_iff m k) Hk).
Qed.

(** X11: which assertion fires.  In a sequence whose outcomes before [k]
    all pass, the check stops at [k] and the outcomes after [k] play no
    part; on [k] the type is tested first, then the sign, then the upper
    bound, so an outcome that fails several tests is reported by the first
    of them.  The three queries raise what the check raises. *)
Theorem first_offender_decides (self : PoiBin) (pre post : list pyscalar) (k : pyscalar) :
  Forall (valid_outcome (n self)) pre ->
  (type_accepted k = false ->
   check_rv_input (n self) (Sequence (pre ++ k :: post))
   = Raise (AssertionError msg_seq_type)) /\
  (type_accepted k = true -> py_ge0 k = false ->
   check_rv_input (n self) (Sequence (pre ++ k :: post))
   = Raise (AssertionError msg_seq_negative)) /\
  (type_accepted k = true -> py_ge0 k = true -> py_le k (n self) = false ->
   check_rv_input (n self) (Sequence (pre ++ k :: post))
   = Raise (AssertionError msg_seq_above)) /\
  (forall e, check_rv_input (n self) (Sequence (pre ++ k :: post)) = Raise e ->
             pmf self (Sequence (pre ++ k :: post)) = Raise e /\
             cdf self (Sequence (pre ++ k :: post)) = Raise e /\
             pval self (Sequence (pre ++ k :: post)) = Raise e).
Proof.
  intros Hpre. rewrite (check_sequence_prefix _ pre (k :: post) Hpre).
  rewrite check_sequence_cons. unfold valid_k, seq_failure.
  split; [| split; [| split]].
  - intros ->. reflexivity.
  - intros -> ->. reflexivity.
  - intros -> -> ->. reflexivity.
  - intros e He. apply queries_raise_with_check.
    rewrite (check_sequence_prefix _ pre (k :: post) Hpre), check_sequence_cons.
    exact He.
Qed.

Lemma first_offender_decides_witness :
  check_rv_input (n zero_object)
                 (Sequence ([PyInt 0] ++ PyFloat (-5 # 2) :: [PyInt 7]))
  = Raise (AssertionError msg_seq_type) /\
  check_rv_input (n zero_object) (Sequence ([PyInt 0] ++ PyInt (-3) :: [PyInt 7]))
  = Raise (AssertionError msg_seq_negative) /\
  check_rv_input (n zero_object) (Sequence ([PyInt 0] ++ NpInt64 7 :: [PyFloat (-5 # 2)]))
  = Raise (AssertionError msg_seq_above) /\
  pmf zero_object (Sequence ([PyInt 0] ++ PyInt (-3) :: [PyInt 7]))
  = Raise (AssertionError msg_seq_negative).
Proof.
  assert (Hpre : Forall (valid_outcome (n zero_object)) [PyInt 0]).
  { repeat constructor. exists 0%Z. split; [now left | simpl; lia]. }
  split; [| split; [| split]].
  - exact (proj1 (first_offender_decides zero_object [PyInt 0] [PyInt 7]
                                         (PyFloat (-5 # 2)) Hpre) eq_refl).
  - exact (proj1 (proj2 (first_offender_decides zero_object [PyInt 0] [PyInt 7]
                                                (PyInt (-3)) Hpre)) eq_refl eq_refl).
  - exact (proj1 (proj2 (proj2 (first_offender_decides zero_object [PyInt 0]
                                                       [PyFloat (-5 # 2)] (NpInt64 7) Hpre)))
                 eq_refl eq_refl eq_refl).
  - apply (proj2 (proj2 (proj2 (first_offender_decides zero_object [PyInt 0] [PyInt 7]
                                                       (PyInt (-3)) Hpre)))).
    exact (proj1 (proj2 (first_offender_decides zero_object [PyInt 0] [PyInt 7]
                                                (PyInt (-3)) Hpre)) eq_refl eq_refl).
Defined.

(** ** The numbers [check_input_prob] accepts *)

Lemma digits2_pos_lower (m : positive) :
  (2 ^ (Z.pos (digits2_pos m) - 1) <= Z.pos m)%Z.
Proof.
  induction m as [m IH | m IH |]; cbn [digits2_pos].
  - replace (Z.pos (Pos.succ (digits2_pos m)) - 1)%Z
      with (Z.succ (Z.pos (digits2_pos m) - 1)) by lia.
    rewrite Z.pow_succ_r by lia. lia.
  - replace (Z.pos (Pos.succ (digits2_pos m)) - 1)%Z
      with (Z.succ (Z.pos (digits2_pos m) - 1)) by lia.
    rewrite Z.pow_succ_r by lia. lia.
  - reflexivity.
Qed.

(** A canonical binary64 mantissa above the smallest exponent has exactly
    53 digits. *)
Lemma mantissa_lower (m : positive) (e : Z) :
  canonical_mantissa prec emax m e = true -> (-1074 < e)%Z ->
  (2 ^ 52 <= Z.pos m)%Z.
Proof.
  unfold canonical_mantissa, fexp, emin, prec, emax. intros H He.
  apply Z.eqb_eq in H.
  assert (Hdig : Z.pos (digits2_pos m) = 53%Z) by lia.
  pose proof (digits2_pos_lower m) as Hl. rewrite Hdig in Hl. exact Hl.
Qed.

Lemma two_pow_52_Z : IZR (2 ^ 52) = 4503599627370496%R.
Proof. reflexivity. Qed.

Lemma le_compare_cont (m k : positive) :
  (Z.pos m <= Z.pos k)%Z ->
  match Pos.compare_cont Eq m k with Gt => false | _ => true end = true.
Proof.
  intros H. change (Pos.compare_cont Eq m k <> Gt) in H.
  destruct (Pos.compare_cont Eq m k); [reflexivity | reflexivity | congruence].
Qed.

Lemma finite_one_leb (m : positive) (e : Z) :
  (e = (-52)%Z /\ (Z.pos m <= 4503599627370496)%Z) \/ (e < -52)%Z ->
  SFleb (S754_finite false m e) (S754_finite false 4503599627370496 (-52)) = true.
Proof.
  unfold SFleb, SFcompare.
  destruct (Z.compare_spec e (-52)) as [He | He | He]; intros [(He' & Hm) | He'];
    try (exfalso; lia); try reflexivity.
  exact (le_compare_cont m 4503599627370496 Hm).
Qed.

Lemma negative_mantissa (m : positive) (e : Z) :
  (IZR (Z.neg m) * powerRZ 2 e < 0)%R.
Proof.
  assert (Hm : (IZR (Z.neg m) < 0)%R) by (apply IZR_lt; reflexivity).
  assert (Hp : (0 < powerRZ 2 e)%R) by (apply powerRZ_lt, Rlt_0_2).
  nra.
Qed.

(** Above the exponent [-52] a canonical value is at least [2]. *)
Lemma scaled_above_52 (m : positive) (e : Z) :
  (2 ^ 52 <= Z.pos m)%Z -> (-52 < e)%Z -> (2 <= IZR (Z.pos m) * powerRZ 2 e)%R.
Proof.
  intros Hm He. apply IZR_le in Hm. rewrite two_pow_52_Z in Hm.
  assert (Hpe : (powerRZ 2 (-51) <= powerRZ 2 e)%R) by (apply powerRZ_2_le; lia).
  assert (H51 : (powerRZ 2 (-51) = 2 * powerRZ 2 (-52))%R).
  { replace (-51)%Z with (1 + -52)%Z by reflexivity.
    rewrite powerRZ_add by lra. simpl (powerRZ 2 1). ring. }
  assert (Hp52 : (0 < powerRZ 2 (-52))%R) by (apply powerRZ_lt, Rlt_0_2).
  pose proof two_pow_52 as H52.
  apply Rle_trans with (4503599627370496 * powerRZ 2 (-51))%R.
  - rewrite H51. lra.
  - apply Rle_trans with (IZR (Z.pos m) * powerRZ 2 (-51))%R.
    + apply Rmult_le_compat_r; [lra | exact Hm].
    + apply Rmult_le_compat_l; [lra | exact Hpe].
Qed.

(** At the exponent [-52] a value of at most [1] has a mantissa of at most
    [2^52]. *)
Lemma mantissa_at_52 (m : positive) :
  (IZR (Z.pos m) * powerRZ 2 (-52) <= 1)%R -> (Z.pos m <= 4503599627370496)%Z.
Proof.
  intros H. apply le_IZR.
  assert (Hp52 : (0 < powerRZ 2 (-52))%R) by (apply powerRZ_lt, Rlt_0_2).
  rewrite <- two_pow_52 in H.
  exact (Rmult_le_reg_r _ _ _ Hp52 H).
Qed.

Lemma finite_in_unit_leb (s : bool) (m : positive) (e : Z) :
  canonical_mantissa prec emax m e = true ->
  (0 <= SF2R (S754_finite s m e) <= 1)%R ->
  SFleb (S754_zero false) (S754_finite s m e) = true /\
  SFleb (S754_finite s m e) (S754_finite false 4503599627370496 (-52)) = true.
Proof.
  intros Hcanon [H0 H1]. cbn [SF2R] in H0, H1.
  destruct s.
  - exfalso. pose proof (negative_mantissa m e). lra.
  - split; [reflexivity |]. apply finite_one_leb.
    destruct (Z_lt_le_dec e (-52)) as [Hlt | Hge]; [right; exact Hlt | left].
    assert (Hm : (2 ^ 52 <= Z.pos m)%Z) by (apply (mantissa_lower m e Hcanon); lia).
    destruct (Z.eq_dec e (-52)) as [-> | Hne].
    + split; [reflexivity | exact (mantissa_at_52 m H1)].
    + exfalso. pose proof (scaled_above_52 m e Hm ltac:(lia)). lra.
Qed.

(** The converse of [validated_finite] and [validated_in_unit_interval]: a
    finite binary64 number whose value lies in [[0, 1]] passes both
    comparisons. *)
Lemma unit_interval_validated (x : float) :
  is_finite_float x = true -> (0 <= float_to_R x <= 1)%R ->
  PrimFloat.leb 0%float x = true /\ PrimFloat.leb x 1%float = true.
Proof.
  rewrite !leb_spec. unfold float_to_R, is_finite_float.
  pose proof (Prim2SF_valid x) as Hvalid.
  replace (Prim2SF 0%float) with (S754_zero false) by (vm_compute; reflexivity).
  replace (Prim2SF 1%float) with (S754_finite false 4503599627370496 (-52))
    by (vm_compute; reflexivity).
  destruct (Prim2SF x) as [s | [|] | | s m e]; intros Hfin Hunit; try discriminate.
  - split; reflexivity.
  - apply andb_prop in Hvalid as [Hcanon _].
    exact (finite_in_unit_leb s m e Hcanon Hunit).
Qed.

(** X12: the numbers [check_input_prob] accepts.  The check passes exactly
    when the array has the one-dimensional shape [(n,)] and every element is
    a finite binary64 number whose value lies in [[0, 1]]: the two numpy
    comparisons on binary64 values agree with the order of the real
    numbers, the negative zero passes as [0], and NaN and the infinities
    are rejected. *)
Theorem check_input_prob_accepts (arr : ndarray) (m : nat) :
  check_input_prob arr m = Ok tt <->
  shape arr = [m] /\
  Forall (fun x => is_finite_float x = true /\ (0 <= float_to_R x <= 1)%R) (data arr).
Proof.
  rewrite check_input_prob_ok. unfold np_all_ge0, np_all_le1.
  rewrite !forallb_true_Forall, !Forall_forall.
  split.
  - intros (Hs & H0 & H1). split; [exact Hs |]. intros x Hx. split.
    + exact (validated_finite x (H0 x Hx) (H1 x Hx)).
    + exact (validated_in_unit_interval x (H0 x Hx) (H1 x Hx)).
  - intros (Hs & H). split; [exact Hs |].
    split; intros x Hx; destruct (H x Hx) as (Hfin & Hunit);
      apply (unit_interval_validated x Hfin Hunit).
Qed.

(** ** The two extreme outcomes *)







(** ** Equal probabilities *)






(** ** Exchanging successes and failures *)






